(** * StreetType: asset resolution, caching and the typography pipeline

    A shallow embedding of the asset layer of StreetType:
    - [src/scripts/utils.js]: the SVG glyph synthesizer;
    - [src/scripts/database.js]: the two [LetterDatabase] classes (the one
      headed "FIXED VERSION", lines 1-399, and the one after it, lines
      400-701) and [LetterGenerator];
    - [src/unnamed/part_000] ([assetManager.js]): path detection and letter
      loading;
    - [src/scripts/typographyManager.js] and [src/scripts/letterSelector.js]:
      the per-character pipelines.

    JavaScript strings are modelled as [string] over ASCII; a JavaScript
    character as [ascii].  Browser primitives (image loading, timers,
    [Math.random]) are modelled as explicit oracles or as explicit events of
    a step machine. *)

From Stdlib Require Import String Ascii List Bool Arith Lia.
Import ListNotations.
Open Scope string_scope.
Open Scope nat_scope.

(* ------------------------------------------------------------------ *)
(** ** JavaScript string helpers *)

Module JS.

Definition dq : string := String (ascii_of_nat 34) EmptyString.
Definition nl : string := String (ascii_of_nat 10) EmptyString.
Definition str1 (c : ascii) : string := String c EmptyString.

Definition code (c : ascii) : nat := nat_of_ascii c.

Definition is_upper (c : ascii) : bool := (65 <=? code c) && (code c <=? 90).
Definition is_lower (c : ascii) : bool := (97 <=? code c) && (code c <=? 122).
(** [/^[0-9]$/] *)
Definition is_digit (c : ascii) : bool := (48 <=? code c) && (code c <=? 57).
(** [/^[a-zA-Z]$/] *)
Definition is_alpha (c : ascii) : bool := is_upper c || is_lower c.
(** [/[a-zA-Z0-9]/] on a single character *)
Definition is_alnum (c : ascii) : bool := is_alpha c || is_digit c.

(** The character class [[!@#$%^&*()_+\-=[\]{}|;':<dq>,./<>?]] (<dq> the
    double quote) of
    [getLetterPath], [getLetterVariants] and [generateFallbackLetterSVG]. *)
Definition symbol_codes : list nat :=
  [33; 64; 35; 36; 37; 94; 38; 42; 40; 41; 95; 43; 45; 61; 91; 93;
   123; 125; 124; 59; 39; 58; 34; 44; 46; 47; 60; 62; 63].
Definition is_symbol (c : ascii) : bool :=
  existsb (Nat.eqb (code c)) symbol_codes.

(** [String.prototype.toUpperCase] / [toLowerCase] on ASCII. *)
Definition up_char (c : ascii) : ascii :=
  if is_lower c then ascii_of_nat (code c - 32) else c.
Definition low_char (c : ascii) : ascii :=
  if is_upper c then ascii_of_nat (code c + 32) else c.

Fixpoint map_str (f : ascii -> ascii) (s : string) : string :=
  match s with
  | EmptyString => EmptyString
  | String c r => String (f c) (map_str f r)
  end.

Definition toUpperCase := map_str up_char.
Definition toLowerCase := map_str low_char.

(** [for (const ch of s)]: the characters of [s], in order. *)
Definition chars (s : string) : list ascii := list_ascii_of_string s.

(** [s.includes(t)] *)
Definition includes (s t : string) : bool :=
  match String.index 0 t s with Some _ => true | None => false end.

(** [s.startsWith(t)] *)
Definition startsWith (s t : string) : bool := String.prefix t s.

(** [s.split('-')[0]] *)
Fixpoint before_dash (s : string) : string :=
  match s with
  | EmptyString => EmptyString
  | String c r => if Ascii.eqb c "-"%char then EmptyString
                  else String c (before_dash r)
  end.

(** [s.replace(pat, v)] with a string pattern: the first occurrence only. *)
Definition replace_first (s pat v : string) : string :=
  match String.index 0 pat s with
  | Some i => substring 0 i s ++ v ++ substring (i + String.length pat) (String.length s) s
  | None => s
  end.

(** Decimal rendering of a natural number ([String(n)]). *)
Fixpoint digits_fuel (fuel n : nat) (acc : string) : string :=
  match fuel with
  | 0 => acc
  | S f =>
      let acc' := String (ascii_of_nat (48 + n mod 10)) acc in
      if n <? 10 then acc' else digits_fuel f (n / 10) acc'
  end.
Definition string_of_nat (n : nat) : string := digits_fuel (S n) n EmptyString.

(** [String(i).padStart(2, '0')] *)
Definition pad2 (n : nat) : string :=
  let s := string_of_nat n in
  if String.length s <? 2 then "0" ++ s else s.

(** [encodeURIComponent] on ASCII: the unreserved characters
    [A-Z a-z 0-9 - _ . ! ~ * ' ( )] are kept, every other one becomes
    [%XX] with upper-case hexadecimal. *)
Definition hexdig (n : nat) : ascii :=
  if n <? 10 then ascii_of_nat (48 + n) else ascii_of_nat (55 + n).
Definition uri_unreserved (c : ascii) : bool :=
  is_alnum c || existsb (Nat.eqb (code c)) [45; 95; 46; 33; 126; 42; 39; 40; 41].
Fixpoint encodeURIComponent (s : string) : string :=
  match s with
  | EmptyString => EmptyString
  | String c r =>
      if uri_unreserved c then String c (encodeURIComponent r)
      else String "%"%char (String (hexdig (code c / 16))
             (String (hexdig (code c mod 16)) (encodeURIComponent r)))
  end.

(** [obj[k]] on an object literal for a key it does not own: the members
    it inherits from [Object.prototype], all truthy, as a template literal
    or a string comparison sees them ([Function.prototype.toString] of a
    built-in as engines print it; [__proto__] gives [Object.prototype]
    itself). Any other key gives [undefined]. *)
Definition proto_member (k : string) : option string :=
  if String.eqb k "__proto__" then Some "[object Object]"
  else if String.eqb k "constructor" then Some "function Object() { [native code] }"
  else if existsb (String.eqb k)
            ["__defineGetter__"; "__defineSetter__"; "hasOwnProperty"; "__lookupGetter__";
             "__lookupSetter__"; "isPrototypeOf"; "propertyIsEnumerable"; "toString";
             "valueOf"; "toLocaleString"]
  then Some ("function " ++ k ++ "() { [native code] }")
  else None.

End JS.

Import JS.

(* ------------------------------------------------------------------ *)
(** ** [utils.js]: the glyph synthesizer *)

Module Utils.

(** The [if (style && (style.includes('-upper') || ...)) baseStyle =
    style.split('-')[0]] step shared by the two functions below. *)
Definition base_style (style : string) : string :=
  if (negb (String.eqb style "")) &&
     (includes style "-upper" || includes style "-lower")
  then before_dash style else style.

Definition getSystemFontFallbacks (style : string) : string :=
  let b := base_style style in
  if String.eqb b "sans" then "Arial, Helvetica, sans-serif"
  else if String.eqb b "serif" then "Georgia, " ++ dq ++ "Times New Roman" ++ dq ++ ", serif"
  else if String.eqb b "mono" then dq ++ "Courier New" ++ dq ++ ", Courier, monospace"
  else if String.eqb b "script" then dq ++ "Comic Sans MS" ++ dq ++ ", cursive, sans-serif"
  else if String.eqb b "decorative" then dq ++ "Impact" ++ dq ++ ", fantasy"
  else "sans-serif".

(** (fill, background, stroke) *)
Definition palette (ch : ascii) (style : string) : string * string * string :=
  let b := base_style style in
  let p :=
    if String.eqb b "sans" then ("#3a7ca5", "#f0f8ff", "#2a5a7a")
    else if String.eqb b "serif" then ("#d63030", "#fff0f0", "#a02020")
    else if String.eqb b "mono" then ("#2d882d", "#f0fff0", "#1d681d")
    else if String.eqb b "script" then ("#aa7c39", "#fff8e6", "#8a5c19")
    else if String.eqb b "decorative" then ("#9933cc", "#f8f0ff", "#7922aa")
    else ("#333", "#f0f0f0", "#ccc") in
  if is_digit ch then ("#6a5acd", "#f5f0ff", "#483d8b")
  else if is_symbol ch then ("#ff8c00", "#fff8f0", "#cc7000")
  else p.

Definition attr (name value : string) : string := name ++ "=" ++ dq ++ value ++ dq.

(** [`shadow_${char}_${Math.floor(Math.random() * 10000)}`]; [r] is the
    drawn integer. *)
Definition filterId (ch : ascii) (r : nat) : string :=
  "shadow_" ++ str1 ch ++ "_" ++ string_of_nat r.

Definition svg_markup (ch : ascii) (style : string) (fid : string) : string :=
  let font := getSystemFontFallbacks style in
  let '(fill, background, stroke) := palette ch style in
  nl ++ "    <svg " ++ attr "xmlns" "http://www.w3.org/2000/svg" ++ " "
     ++ attr "width" "40" ++ " " ++ attr "height" "60" ++ " "
     ++ attr "viewBox" "0 0 40 60" ++ " "
     ++ attr "preserveAspectRatio" "xMidYMid meet" ++ ">"
  ++ nl ++ "      <defs>"
  ++ nl ++ "        <filter " ++ attr "id" fid ++ ">"
  ++ nl ++ "          <feDropShadow " ++ attr "dx" "1" ++ " " ++ attr "dy" "1" ++ " "
     ++ attr "stdDeviation" "1" ++ " " ++ attr "flood-opacity" "0.3" ++ "/>"
  ++ nl ++ "        </filter>"
  ++ nl ++ "      </defs>"
  ++ nl ++ "      "
  ++ nl ++ "      <!-- Background -->"
  ++ nl ++ "      <rect " ++ attr "width" "40" ++ " " ++ attr "height" "60" ++ " "
     ++ attr "fill" background ++ " " ++ attr "stroke" stroke ++ " "
     ++ attr "stroke-width" "1" ++ "/>"
  ++ nl ++ "      "
  ++ nl ++ "      <!-- Letter with shadow -->"
  ++ nl ++ "      <text "
  ++ nl ++ "        " ++ attr "x" "20" ++ " "
  ++ nl ++ "        " ++ attr "y" "35" ++ " "
  ++ nl ++ "        " ++ attr "font-family" font ++ " "
  ++ nl ++ "        " ++ attr "font-size" "30" ++ " "
  ++ nl ++ "        " ++ attr "fill" fill ++ " "
  ++ nl ++ "        " ++ attr "text-anchor" "middle" ++ " "
  ++ nl ++ "        " ++ attr "dominant-baseline" "middle"
  ++ nl ++ "        " ++ attr "filter" ("url(#" ++ fid ++ ")")
  ++ nl ++ "      >" ++ str1 ch ++ "</text>"
  ++ nl ++ "    </svg>".

(** [generateFallbackLetterSVG(char, style)], with the value of
    [Math.floor(Math.random() * 10000)] passed as [r]. *)
Definition generateFallbackLetterSVG (ch : ascii) (style : string) (r : nat) : string :=
  "data:image/svg+xml;charset=utf-8," ++ encodeURIComponent (svg_markup ch style (filterId ch r)).

End Utils.

Import Utils.

(* ------------------------------------------------------------------ *)
(** ** JavaScript objects handed around by the asset layer *)

(** The image elements, letter objects and placeholder objects of the
    sources are plain JavaScript objects; a field the object lacks is
    [None] (reads as [undefined]). *)
Record obj := mkObj {
  o_src : option string;
  o_width : option nat;
  o_height : option nat;
  o_isFallback : option bool;
  o_isGenerated : option bool
}.

(** [!x.width] in JavaScript: [undefined] and [0] are falsy. *)
Definition falsy_dim (d : option nat) : bool :=
  match d with Some (S _) => false | _ => true end.

(** Association lists for JavaScript objects and [Map]s used as maps. *)
Fixpoint lookup {V} (k : string) (m : list (string * V)) : option V :=
  match m with
  | [] => None
  | (k', v) :: r => if String.eqb k k' then Some v else lookup k r
  end.

Fixpoint remove_key {V} (k : string) (m : list (string * V)) : list (string * V) :=
  match m with
  | [] => []
  | (k', v) :: r => if String.eqb k k' then remove_key k r else (k', v) :: remove_key k r
  end.

Definition set_key {V} (k : string) (v : V) (m : list (string * V)) : list (string * V) :=
  (k, v) :: remove_key k m.

(* ------------------------------------------------------------------ *)
(** ** [database.js], first class ("FIXED VERSION"): variant catalog *)

Module FixedDB.

(** [this.pathExistsCache.checked] and [this.assetsDetected], both set by
    [_checkForAssets] once the startup asset check has run. *)
Record db_state := mkDB { checked : bool; assetsDetected : bool }.

(** [LetterDatabase.styleFolderMap[k]] for the [static styleFolderMap]
    object literal: its own keys, then the members it inherits; [None] is
    [undefined]. *)
Definition styleFolderMap (k : string) : option string :=
  if String.eqb k "sans" then Some "sans"
  else if String.eqb k "serif" then Some "serif"
  else if String.eqb k "mono" then Some "monospace"
  else if String.eqb k "script" then Some "script"
  else if String.eqb k "decorative" then Some "decorative"
  else if String.eqb k "random" then Some "sans"
  else proto_member k.

(** [symbolMap] of [getLetterPath], by character code. *)
Definition symbolMap : list (nat * string) :=
  [(33, "exclamation"); (63, "question"); (46, "period"); (44, "comma");
   (58, "colon"); (59, "semicolon"); (34, "quote"); (39, "apostrophe");
   (40, "parenthesis-open"); (41, "parenthesis-close"); (91, "bracket-open");
   (93, "bracket-close"); (123, "brace-open"); (125, "brace-close");
   (60, "angle-open"); (62, "angle-close"); (43, "plus"); (45, "minus");
   (42, "asterisk"); (47, "slash"); (92, "backslash"); (124, "vertical-bar");
   (61, "equals"); (64, "at"); (35, "hash"); (36, "dollar"); (37, "percent");
   (94, "caret"); (38, "ampersand"); (95, "underscore")].

Definition symbolName (c : ascii) : string :=
  match find (fun p => Nat.eqb (fst p) (code c)) symbolMap with
  | Some (_, n) => n
  | None => "symbol"
  end.

(** Messages written with [console.error]. *)
Definition log := list string.

(** [getLetterPath(character, styleKey, location, variantIndex)]: the path,
    or [None] for [null], with the errors logged on the way. *)
Definition getLetterPath (c : ascii) (styleKey location : string) (variantIndex : nat)
  : option string * log :=
  let idx := pad2 variantIndex in
  if is_digit c then
    (Some ("assets/Numbers/" ++ str1 c ++ "/" ++ idx ++ ".jpg"), [])
  else if is_symbol c then
    (Some ("assets/Symbols/" ++ symbolName c ++ "/" ++ idx ++ ".jpg"), [])
  else if is_alpha c then
    let letter := up_char c in
    let caseType := if Ascii.eqb c letter then "upper" else "lower" in
    match styleFolderMap styleKey with
    | None => (None, ["Unknown style key: " ++ styleKey])
    | Some styleDir =>
        (Some ("assets/Alphabet/cities/" ++ location ++ "/alphabet/" ++ str1 letter
               ++ "/" ++ styleDir ++ "-" ++ caseType ++ "/" ++ idx ++ ".jpg"), [])
    end
  else (None, []).

Section Variants.

(** The answer of the browser to one probe of [pathExists] (load success
    within the timeout).  The memo [pathExistsCache] is not modelled: a
    path already in it gets its cached entry before the no-assets test
    (an entry a late [onload] may have rewritten to [true]). *)
Variable probe : string -> bool.

(** [pathExists(path)] *)
Definition pathExists (st : db_state) (path : string) : bool :=
  if checked st && negb (assetsDetected st) then false else probe path.

(** One iteration of the probing loops: build the path, probe it, keep it
    when it exists. *)
Definition probe_variant (st : db_state) (c : ascii) (styleKey location : string) (i : nat)
  : list string * log :=
  match getLetterPath c styleKey location i with
  | (Some p, l) => (if pathExists st p then [p] else [], l)
  | (None, l) => ([], l)
  end.

Definition probe_all (st : db_state) (c : ascii) (styleKey location : string) (idxs : list nat)
  : list string * log :=
  fold_left (fun acc i => let '(f, l) := acc in
                          let '(f', l') := probe_variant st c styleKey location i in
                          (app f f', app l l'))
            idxs ([], []).

(** The [fullStyle] of the early no-assets return (line 272). *)
Definition shortcut_style (c : ascii) (styleKey : string) : string :=
  styleKey ++ "-" ++ (if Ascii.eqb c (up_char c) then "upper" else "lower").

(** The [fullStyle] of the final fallback branch (lines 323-331). *)
Definition fallback_style (c : ascii) (styleKey : string) : string :=
  if is_alpha c then styleKey ++ "-" ++ (if Ascii.eqb c (up_char c) then "upper" else "lower")
  else styleKey.

(** [getLetterVariants(character, styleKey, location, skipFallback)];
    [r] is the random draw of the synthesizer. *)
Definition getLetterVariants (st : db_state) (c : ascii) (styleKey location : string)
    (skipFallback : bool) (r : nat) : list string * log :=
  if checked st && negb (assetsDetected st) && negb skipFallback then
    ([generateFallbackLetterSVG c (shortcut_style c styleKey) r], [])
  else
    let '(found, l) :=
      if is_digit c || is_symbol c then
        match fst (getLetterPath c styleKey location 1) with
        | Some _ => probe_all st c styleKey location [1; 2; 3]
        | None => ([], [])
        end
      else probe_all st c styleKey location [1; 2; 3] in
    match found with
    | [] => if skipFallback then ([], l)
            else ([generateFallbackLetterSVG c (fallback_style c styleKey) r], l)
    | _ => (found, l)
    end.

End Variants.

End FixedDB.

(* ------------------------------------------------------------------ *)
(** ** [LetterDatabase.loadImage]: the load coordinator, both versions *)

(** [loadImage] registers a promise per path in [this.loadingPromises] and
    starts an [Image] load whose [onload], [onerror] and timeout callbacks
    run later.  The model is a step machine: a call runs the synchronous
    part of [loadImage] (up to its [return]), and each browser callback is
    an event.  [FixedVersion] is the class of lines 1-399 ([loadImage] at
    lines 346-398); [SecondVersion] the class of lines 400-701 ([loadImage]
    at lines 623-700). *)
Module Loader.

Inductive version := FixedVersion | SecondVersion.

Inductive pstate := Pending | Fulfilled (v : option obj) | Rejected (msg : string).

(** One [new Image()] whose [src] was set: the path, the promise its
    callbacks settle, whether its 5 s timer is still armed, whether the
    browser already fired [onload] or [onerror]. *)
Record fetch := mkFetch { f_path : string; f_promise : nat; f_timer : bool; f_done : bool }.

Record state := mkState {
  letterCache : list (string * obj);
  loadingPromises : list (string * nat);
  promises : list (nat * pstate);
  fetches : list fetch;
  next_promise : nat
}.

Definition init : state := mkState [] [] [] [] 0.

(** What a call resolves to: a value at once, or the value of a promise. *)
Inductive ret := Now (v : option obj) | Await (p : nat).

(** [_createMinimalImageObject()] *)
Definition minimal : obj := mkObj None (Some 40) (Some 60) None None.

(** [new Image()] with [src] set and not yet loaded. *)
Definition unloaded (path : string) : obj := mkObj (Some path) (Some 0) (Some 0) None None.

Fixpoint set_nth {A} (n : nat) (x : A) (l : list A) : list A :=
  match l, n with
  | [], _ => []
  | _ :: r, 0 => x :: r
  | y :: r, S n' => y :: set_nth n' x r
  end.

Fixpoint lookup_p (p : nat) (m : list (nat * pstate)) : option pstate :=
  match m with
  | [] => None
  | (q, s) :: r => if Nat.eqb p q then Some s else lookup_p p r
  end.

(** [resolve] / [reject] of an executor: no effect on a settled promise. *)
Fixpoint settle (p : nat) (s : pstate) (m : list (nat * pstate)) : list (nat * pstate) :=
  match m with
  | [] => []
  | (q, Pending) :: r => if Nat.eqb p q then (q, s) :: r else (q, Pending) :: settle p s r
  | (q, s') :: r => (q, s') :: (if Nat.eqb p q then r else settle p s r)
  end.

(** The part of [new Promise(executor)] that runs at once: the [Image] is
    created, its timer armed, its [src] set; the promise is registered in
    [loadingPromises] before [loadImage] returns. *)
Definition start_load (path : string) (st : state) : state * ret :=
  let p := next_promise st in
  (mkState (letterCache st) (set_key path p (loadingPromises st))
           ((p, Pending) :: promises st)
           (fetches st ++ [mkFetch path p true false])%list (S p),
   Await p).

(** [loadImage(path)], synchronous part.  [this.letterCache[path]] and
    [this.loadingPromises[path]] are read as own keys of the two objects;
    this is JS's lookup for every path with [proto_member path = None]
    (for the other paths JS finds the inherited member first). *)
Definition call (v : version) (path : string) (st : state) : state * ret :=
  match v with
  | FixedVersion =>
      if String.eqb path "" then (st, Now None)
      else if startsWith path "data:image/svg+xml" then (st, Now (Some (unloaded path)))
      else match lookup path (letterCache st) with
      | Some img => (st, Now (Some img))
      | None =>
          match lookup path (loadingPromises st) with
          | Some p => (st, Await p)
          | None => start_load path st
          end
      end
  | SecondVersion =>
      if String.eqb path "" then (st, Now (Some minimal))
      else match lookup path (letterCache st) with
      | Some img => (st, Now (Some img))
      | None =>
          match lookup path (loadingPromises st) with
          | Some p => (st, Await p)
          | None => start_load path st
          end
      end
  end.

(** How [onerror] and the timeout settle the promise. *)
Definition failure (v : version) (path : string) : pstate :=
  match v with
  | FixedVersion => Rejected ("Failed to load image: " ++ path)
  | SecondVersion => Fulfilled (Some minimal)
  end.

Definition timeout_outcome (v : version) (path : string) : pstate :=
  match v with
  | FixedVersion => Rejected ("Timeout loading image: " ++ path)
  | SecondVersion => Fulfilled (Some minimal)
  end.

(** Browser callbacks of fetch number [k]. *)
Inductive event :=
  | OnLoad (k : nat) (img : obj)
  | OnError (k : nat)
  | OnTimeout (k : nat).

Definition fire (v : version) (e : event) (st : state) : state :=
  match e with
  | OnLoad k img =>
      match nth_error (fetches st) k with
      | Some f =>
          if f_done f then st else
          (* clearTimeout; letterCache[path] = img; delete loadingPromises[path]; resolve(img) *)
          mkState (set_key (f_path f) img (letterCache st))
                  (remove_key (f_path f) (loadingPromises st))
                  (settle (f_promise f) (Fulfilled (Some img)) (promises st))
                  (set_nth k (mkFetch (f_path f) (f_promise f) false true) (fetches st))
                  (next_promise st)
      | None => st
      end
  | OnError k =>
      match nth_error (fetches st) k with
      | Some f =>
          if f_done f then st else
          mkState (letterCache st)
                  (remove_key (f_path f) (loadingPromises st))
                  (settle (f_promise f) (failure v (f_path f)) (promises st))
                  (set_nth k (mkFetch (f_path f) (f_promise f) false true) (fetches st))
                  (next_promise st)
      | None => st
      end
  | OnTimeout k =>
      match nth_error (fetches st) k with
      | Some f =>
          if negb (f_timer f) then st else
          mkState (letterCache st)
                  (remove_key (f_path f) (loadingPromises st))
                  (settle (f_promise f) (timeout_outcome v (f_path f)) (promises st))
                  (set_nth k (mkFetch (f_path f) (f_promise f) false (f_done f)) (fetches st))
                  (next_promise st)
      | None => st
      end
  end.

(** A run: calls to [loadImage] interleaved with browser callbacks. *)
Inductive action := Call (path : string) | Ev (e : event).

Fixpoint run (v : version) (acts : list action) (st : state) : state * list ret :=
  match acts with
  | [] => (st, [])
  | Call p :: r => let '(st1, x) := call v p st in
                   let '(st2, xs) := run v r st1 in (st2, x :: xs)
  | Ev e :: r => run v r (fire v e st)
  end.

End Loader.

(* ------------------------------------------------------------------ *)
(** ** [assetManager.js] ([src/unnamed/part_000]): detection and loading *)

Module AssetManager.

Import Loader.

(** The asset manager's fields, plus [probes]: every path handed to
    [_checkFileExists], in order (the network traffic of detection), and
    [draws]: how many [Math.random] values the synthesizer consumed.
    [lpromises] holds the promises of [_loadLetterImage]; [lfetches] maps
    each started [Image] load to the promise it settles. *)
Record am_state := mkAM {
  cache : list (string * obj);
  fallbackImages : list (string * obj);
  loadingPromises : list (string * nat);
  lpromises : list (nat * pstate);
  lfetches : list (string * nat);
  next_p : nat;
  basePath : string;
  initialized : bool;
  workingPathPattern : option string;
  assetsDetected : bool;
  assetDetectionCompleted : bool;
  requested : nat; loaded : nat; failed : nat; cached : nat;
  probes : list string;
  draws : nat
}.

(** The constructor. *)
Definition fresh : am_state :=
  mkAM [] [] [] [] [] 0 "" false None false false 0 0 0 0 [] 0.

Definition possibleBasePaths : list string :=
  [""; "assets/"; "/assets/"; "./assets/"; "../assets/"; "images/"; "/images/";
   "./images/"; "fonts/"; "/fonts/"; "./fonts/"; "letters/"; "/letters/"; "./letters/"].

Definition pathTemplates : list string :=
  ["${base}${city}/alphabet/${letter}/${style}/${variant}.jpg";
   "${base}cities/${city}/alphabet/${letter}/${style}/${variant}.jpg";
   "${base}alphabet/${city}/${letter}/${style}/${variant}.jpg";
   "${base}${letter}/${style}/${variant}.jpg";
   "${base}${style}/${letter}/${variant}.jpg";
   "${base}${letter}_${style}_${variant}.jpg"].

Definition quickPaths : list string :=
  ["assets/alphabet/NYC/A/sans-upper/01.jpg"; "assets/letters/A/sans-upper/01.jpg"].

(** [_replacePlaceholders(template, {base, city, letter, style, variant})]:
    one [replace] per entry, in insertion order. *)
Definition replacePlaceholders (template base city letter style variant : string) : string :=
  let r := replace_first template "${base}" base in
  let r := replace_first r "${city}" city in
  let r := replace_first r "${letter}" letter in
  let r := replace_first r "${style}" style in
  replace_first r "${variant}" variant.

(** The canonical probe instantiation of the detection loop. *)
Definition testPath (base template : string) : string :=
  replacePlaceholders template base "NYC" "A" "sans-upper" "01".

Fixpoint before_slash (s : string) : string :=
  match s with
  | EmptyString => EmptyString
  | String c r => if Ascii.eqb c "/"%char then EmptyString else String c (before_slash r)
  end.

Section Machine.

(** [window.location.hostname] is [localhost] or [127.0.0.1]. *)
Variable is_local : bool.
(** The answer of [_checkFileExists] for a path. *)
Variable exists_ : string -> bool.
(** The [n]-th value of [Math.floor(Math.random() * 10000)]. *)
Variable rand : nat -> nat.
(** The candidate lists of the production branch. *)
Variable bases templates : list string.

(** [_getFallbackLetter(char, style)] *)
Definition getFallbackLetter (ch : ascii) (style : string) (st : am_state) : obj * am_state :=
  match lookup (str1 ch) (fallbackImages st) with
  | Some f => (f, st)
  | None =>
      let f := mkObj (Some (generateFallbackLetterSVG ch style (rand (draws st))))
                     None None (Some true) None in
      (f, mkAM (cache st) (set_key (str1 ch) f (fallbackImages st)) (loadingPromises st)
               (lpromises st) (lfetches st) (next_p st) (basePath st) (initialized st)
               (workingPathPattern st) (assetsDetected st) (assetDetectionCompleted st)
               (requested st) (loaded st) (failed st) (cached st) (probes st) (S (draws st)))
  end.

(** Where a caller of [initialize] stands: before the first test, about to
    test the head of a list, suspended on the test of a path, or returned. *)
Inductive init_pc :=
  | IStart
  | IQuick (paths : list string)
  | IQuickWait (path : string) (rest : list string)
  | IBases (bs : list string)
  | ITmpls (b : string) (ts : list string) (bs : list string)
  | ITmplWait (b t : string) (ts : list string) (bs : list string)
  | IDone (result : bool).

Definition with_probe (p : string) (st : am_state) : am_state :=
  mkAM (cache st) (fallbackImages st) (loadingPromises st) (lpromises st) (lfetches st)
       (next_p st) (basePath st) (initialized st) (workingPathPattern st)
       (assetsDetected st) (assetDetectionCompleted st) (requested st) (loaded st)
       (failed st) (cached st) (probes st ++ [p])%list (draws st).

Definition with_detection (b : string) (pat : option string) (det : bool) (st : am_state) : am_state :=
  mkAM (cache st) (fallbackImages st) (loadingPromises st) (lpromises st) (lfetches st)
       (next_p st) b (initialized st) pat det (assetDetectionCompleted st)
       (requested st) (loaded st) (failed st) (cached st) (probes st) (draws st).

(** Lines 129-137: [if (!this.assetsDetected) this.basePath = 'assets/';
    this.initialized = true; this.assetDetectionCompleted = true;
    return this.assetsDetected]. *)
Definition finish (st : am_state) : init_pc * am_state :=
  let b := if assetsDetected st then basePath st else "assets/" in
  (IDone (assetsDetected st),
   mkAM (cache st) (fallbackImages st) (loadingPromises st) (lpromises st) (lfetches st)
        (next_p st) b true (workingPathPattern st) (assetsDetected st) true
        (requested st) (loaded st) (failed st) (cached st) (probes st) (draws st)).

(** One step of one caller of [initialize()]. *)
Definition init_step (pc : init_pc) (st : am_state) : init_pc * am_state :=
  match pc with
  | IStart =>
      if initialized st then (IDone (assetsDetected st), st)
      else
        let fA := mkObj (Some (generateFallbackLetterSVG "A"%char "sans" (rand (draws st))))
                        None None (Some true) None in
        let st1 := mkAM (cache st) (set_key "A" fA (fallbackImages st)) (loadingPromises st)
                        (lpromises st) (lfetches st) (next_p st) (basePath st) (initialized st)
                        (workingPathPattern st) (assetsDetected st) (assetDetectionCompleted st)
                        (requested st) (loaded st) (failed st) (cached st) (probes st)
                        (S (draws st)) in
        (if is_local then IQuick quickPaths else IBases bases, st1)
  | IQuick [] =>
      (* no quick path found: fallback mode *)
      (IDone false,
       mkAM (cache st) (fallbackImages st) (loadingPromises st) (lpromises st) (lfetches st)
            (next_p st) "assets/" true (workingPathPattern st) (assetsDetected st) true
            (requested st) (loaded st) (failed st) (cached st) (probes st) (draws st))
  | IQuick (p :: ps) => (IQuickWait p ps, with_probe p st)
  | IQuickWait p ps =>
      if exists_ p then
        let b := before_slash p ++ "/" in
        let rest := substring (String.length b) (String.length p) p in
        let pat := "${base}" ++ replace_first (replace_first (replace_first rest "A" "${letter}")
                                 "sans-upper" "${style}") "01.jpg" "${variant}.jpg" in
        finish (with_detection b (Some pat) (assetsDetected st) st)
      else (IQuick ps, st)
  | IBases [] => finish st
  | IBases (b :: bs) => (ITmpls b templates bs, st)
  | ITmpls b [] bs => if assetsDetected st then finish st else (IBases bs, st)
  | ITmpls b (t :: ts) bs => (ITmplWait b t ts bs, with_probe (testPath b t) st)
  | ITmplWait b t ts bs =>
      if exists_ (testPath b t) then
        (* found: record it, [break] the inner loop, then the outer
           [if (this.assetsDetected) break] *)
        finish (with_detection b (Some t) true st)
      else (ITmpls b ts bs, st)
  | IDone r => (IDone r, st)
  end.

(** Several callers of [initialize()], stepped in the order a schedule
    gives (each entry the index of the caller that runs next). *)
Definition sched_step (pcs : list init_pc) (i : nat) (st : am_state) : list init_pc * am_state :=
  match nth_error pcs i with
  | Some pc => let '(pc', st') := init_step pc st in (set_nth i pc' pcs, st')
  | None => (pcs, st)
  end.

Fixpoint run_sched (sched : list nat) (pcs : list init_pc) (st : am_state) : list init_pc * am_state :=
  match sched with
  | [] => (pcs, st)
  | i :: r => let '(pcs', st') := sched_step pcs i st in run_sched r pcs' st'
  end.

(** One caller alone, for at most [fuel] steps. *)
Fixpoint run_solo (fuel : nat) (pc : init_pc) (st : am_state) : init_pc * am_state :=
  match fuel with
  | 0 => (pc, st)
  | S f => match pc with
           | IDone _ => (pc, st)
           | _ => let '(pc', st') := init_step pc st in run_solo f pc' st'
           end
  end.

End Machine.

End AssetManager.

(** [AssetManager.loadLetter]: callers of [loadLetter] as a step machine
    sharing the asset manager's state with the [Image] loads started by
    [_loadLetterImage]. *)
Module LetterLoading.

Import Loader AssetManager.

Definition set_caches (c : list (string * obj)) (lp : list (string * nat))
  (ps : list (nat * pstate)) (st : am_state) : am_state :=
  mkAM c (fallbackImages st) lp ps (lfetches st) (next_p st) (basePath st)
       (initialized st) (workingPathPattern st) (assetsDetected st)
       (assetDetectionCompleted st) (requested st) (loaded st) (failed st)
       (cached st) (probes st) (draws st).

Definition set_counts (rq ld fl ch : nat) (st : am_state) : am_state :=
  mkAM (cache st) (fallbackImages st) (loadingPromises st) (lpromises st) (lfetches st)
       (next_p st) (basePath st) (initialized st) (workingPathPattern st)
       (assetsDetected st) (assetDetectionCompleted st) rq ld fl ch (probes st) (draws st).

(** A new promise of [_loadLetterImage], with the [Image] load it waits
    for when [fetch] is [Some path]. *)
Definition new_promise (s : pstate) (fetch : option string) (st : am_state) : nat * am_state :=
  let p := next_p st in
  (p, mkAM (cache st) (fallbackImages st) (loadingPromises st) ((p, s) :: lpromises st)
           (match fetch with Some path => (lfetches st ++ [(path, p)])%list
                             | None => lfetches st end)
           (S p) (basePath st) (initialized st) (workingPathPattern st)
           (assetsDetected st) (assetDetectionCompleted st) (requested st) (loaded st)
           (failed st) (cached st) (probes st) (draws st)).

Section Callers.

Variable is_local : bool.
Variable exists_ : string -> bool.
Variable rand : nat -> nat.
Variable bases templates : list string.

Inductive ll_pc :=
  | LStart (city style : string) (letter : ascii) (variant : string)
  | LInit (ipc : init_pc) (city style : string) (letter : ascii) (variant : string)
  | LAwaitOwn (key : string) (letter : ascii) (style : string) (p : nat)
  | LAwaitJoin (p : nat)
  | LDone (outcome : pstate).

(** [const cacheKey = `${city}_${style}_${letter}_${variant}`] *)
Definition cacheKey (city style : string) (letter : ascii) (variant : string) : string :=
  city ++ "_" ++ style ++ "_" ++ str1 letter ++ "_" ++ variant.

(** [_loadLetterImage(city, style, letter, variant)], synchronous part:
    the promise it returns. *)
Definition loadLetterImage (city style : string) (letter : ascii) (variant : string)
    (st : am_state) : nat * am_state :=
  match workingPathPattern st with
  | None =>
      let '(f, st1) := getFallbackLetter rand letter style st in
      new_promise (Fulfilled (Some f)) None st1
  | Some pat =>
      let path := replacePlaceholders pat (basePath st) city (str1 letter) style variant in
      new_promise Pending (Some path) st
  end.

(** Lines 189-213 of [loadLetter], after [initialize]. *)
Definition body (city style : string) (letter : ascii) (variant : string) (st : am_state)
  : ll_pc * am_state :=
  let st := set_counts (S (requested st)) (loaded st) (failed st) (cached st) st in
  let key := cacheKey city style letter variant in
  match lookup key (cache st) with
  | Some v => (LDone (Fulfilled (Some v)),
               set_counts (requested st) (loaded st) (failed st) (S (cached st)) st)
  | None =>
      match lookup key (AssetManager.loadingPromises st) with
      | Some p => (LAwaitJoin p, st)
      | None =>
          if assetDetectionCompleted st && negb (assetsDetected st) then
            let '(f, st1) := getFallbackLetter rand letter style st in
            (LDone (Fulfilled (Some f)), st1)
          else
            let '(p, st1) := loadLetterImage city style letter variant st in
            (LAwaitOwn key letter style p,
             set_caches (cache st1) (set_key key p (AssetManager.loadingPromises st1))
                        (lpromises st1) st1)
      end
  end.

(** One step of one caller of [loadLetter]. *)
Definition ll_step (pc : ll_pc) (st : am_state) : ll_pc * am_state :=
  match pc with
  | LStart city style letter variant =>
      if initialized st then body city style letter variant st
      else (LInit IStart city style letter variant, st)
  | LInit (IDone _) city style letter variant => body city style letter variant st
  | LInit ipc city style letter variant =>
      let '(ipc', st') := init_step is_local exists_ rand bases templates ipc st in
      (LInit ipc' city style letter variant, st')
  | LAwaitOwn key letter style p =>
      match lookup_p p (lpromises st) with
      | Some (Fulfilled v) =>
          let c := match v with Some o => set_key key o (cache st) | None => cache st end in
          (LDone (Fulfilled v),
           set_caches c (remove_key key (AssetManager.loadingPromises st)) (lpromises st) st)
      | Some (Rejected _) =>
          let st1 := set_caches (cache st) (remove_key key (AssetManager.loadingPromises st))
                                (lpromises st) st in
          let st2 := set_counts (requested st1) (loaded st1) (S (failed st1)) (cached st1) st1 in
          let '(f, st3) := getFallbackLetter rand letter style st2 in
          (LDone (Fulfilled (Some f)), st3)
      | _ => (pc, st)
      end
  | LAwaitJoin p =>
      match lookup_p p (lpromises st) with
      | Some Pending | None => (pc, st)
      | Some s => (LDone s, st)
      end
  | LDone _ => (pc, st)
  end.

(** What runs next: a caller, or a callback of the [k]-th [Image] load of
    [_loadLetterImage] ([onload] with the decoded size, or [onerror]). *)
Inductive item := Run (i : nat) | ImgLoad (k w h : nat) | ImgError (k : nat).

Definition img_event (k : nat) (ok : option (nat * nat)) (st : am_state) : am_state :=
  match nth_error (lfetches st) k with
  | None => st
  | Some (path, p) =>
      match lookup_p p (lpromises st) with
      | Some Pending =>
          match ok with
          | Some (w, h) =>
              let st1 := set_counts (requested st) (S (loaded st)) (failed st) (cached st) st in
              set_caches (cache st1) (AssetManager.loadingPromises st1)
                (settle p (Fulfilled (Some (mkObj (Some path) (Some w) (Some h) (Some false) None)))
                        (lpromises st1)) st1
          | None =>
              set_caches (cache st) (AssetManager.loadingPromises st)
                (settle p (Rejected ("Failed to load image: " ++ path)) (lpromises st)) st
          end
      | _ => st
      end
  end.

Definition ll_item (pcs : list ll_pc) (it : item) (st : am_state) : list ll_pc * am_state :=
  match it with
  | Run i =>
      match nth_error pcs i with
      | Some pc => let '(pc', st') := ll_step pc st in (set_nth i pc' pcs, st')
      | None => (pcs, st)
      end
  | ImgLoad k w h => (pcs, img_event k (Some (w, h)) st)
  | ImgError k => (pcs, img_event k None st)
  end.

Fixpoint ll_run (items : list item) (pcs : list ll_pc) (st : am_state) : list ll_pc * am_state :=
  match items with
  | [] => (pcs, st)
  | it :: r => let '(pcs', st') := ll_item pcs it st in ll_run r pcs' st'
  end.

End Callers.

End LetterLoading.

(* ------------------------------------------------------------------ *)
(** ** [letterGenerator.js] (end of [database.js]) *)

(** Objects returned by [generateLetter] live in a heap; a result is a
    reference into it, so that "the same object" is reference equality. *)
Module LetterGenerator.

Record lg_state := mkLG {
  lg_cache : list (string * nat);
  heap : list obj;
  generated : nat;
  cachedHits : nat
}.

Definition lg_fresh : lg_state := mkLG [] [] 0 0.

(** [options.variant || '01'] and [options.city || 'NYC']: an absent or
    empty option takes the default. *)
Definition or_default (o : option string) (d : string) : string :=
  match o with Some s => if String.eqb s "" then d else s | None => d end.

(** [generateLetter(char, style, {variant, city})], [r] the random draw
    used when the synthesizer runs. *)
Definition generateLetter (ch : ascii) (style : string) (variant city : option string)
    (r : nat) (st : lg_state) : nat * lg_state :=
  let key := str1 ch ++ "_" ++ style ++ "_" ++ or_default variant "01" ++ "_"
             ++ or_default city "NYC" in
  match lookup key (lg_cache st) with
  | Some ref => (ref, mkLG (lg_cache st) (heap st) (generated st) (S (cachedHits st)))
  | None =>
      let letter := mkObj (Some (generateFallbackLetterSVG ch style r)) None None
                          (Some true) (Some true) in
      let ref := List.length (heap st) in
      (ref, mkLG (set_key key ref (lg_cache st)) (heap st ++ [letter])%list
                 (S (generated st)) (cachedHits st))
  end.

Definition deref (st : lg_state) (ref : nat) : option obj := nth_error (heap st) ref.

End LetterGenerator.

(* ------------------------------------------------------------------ *)
(** ** Letter descriptors *)

(** The letter objects built by [getLettersFromText] and by the letter
    selector; a field the object lacks is [None]. *)
Record desc := mkDesc {
  d_type : string;
  d_value : ascii;
  d_style : option string;
  d_case : option string;
  d_fullStyle : option string;
  d_index : option nat;
  d_path : option string;
  d_image : option (option obj);
  d_isFallback : option bool;
  d_isGenerated : option bool
}.

(** A JavaScript value passed as [text]. *)
Inductive jsval := JStr (s : string) | JOther.

(** [config.defaults] ([config.js] is not among the sources; its fields are
    parameters of the pipeline). *)
Record defaults := mkDefaults {
  def_fontStyle : string;
  def_city : string;
  def_caseOption : string;
  def_text : string
}.

(** The [options] object: [None] for an absent key. *)
Record options := mkOptions {
  opt_style : option string;
  opt_city : option string;
  opt_caseOption : option string
}.

(** The case transformation shared by both pipelines. *)
Definition case_transform (caseOption text : string) : string :=
  if String.eqb caseOption "upper" then toUpperCase text
  else if String.eqb caseOption "lower" then toLowerCase text
  else text.

(* ------------------------------------------------------------------ *)
(** ** [TypographyManager.getLettersFromText] *)

Module Typography.

Section Pipeline.

(** The state shared by the calls (asset manager, generator, flags). *)
Variable St : Type.
(** [if (!this.initialized) await this.initialize();] *)
Variable ensure_initialized : St -> St.
(** [this.loadLetter(city, fullStyle, char)]: the state after the
    synchronous part of the call, and what its promise settles to
    ([inl] a value, [inr] a rejection). *)
Variable loadLetter : string -> string -> ascii -> St -> (option obj + string) * St.
(** The [Math.random] draw of the synthesizer in the [.catch] handler of
    the [i]-th character. *)
Variable rnd : nat -> nat.

Definition info_plain (kind : string) (c : ascii) (i : nat) : desc :=
  mkDesc kind c None None None (Some i) None None None None.

(** The loop of lines 118-167: [letterInfo] paired with the settled value
    of [letterPromises[i]] ([None] for [Promise.resolve(null)]). *)
Fixpoint collect (style city : string) (cs : list ascii) (i : nat) (st : St)
  : list (desc * option (option obj + string)) * St :=
  match cs with
  | [] => ([], st)
  | c :: r =>
      if Ascii.eqb c " "%char then
        let '(rest, st') := collect style city r (S i) st in
        ((info_plain "space" c i, None) :: rest, st')
      else if negb (is_alnum c) then
        let '(rest, st') := collect style city r (S i) st in
        ((info_plain "special" c i, None) :: rest, st')
      else
        let charCase := if Ascii.eqb c (up_char c) then "upper" else "lower" in
        let fullStyle := style ++ "-" ++ charCase in
        let info := mkDesc "letter" c (Some style) (Some charCase) (Some fullStyle)
                           (Some i) None None None None in
        let '(outcome, st1) := loadLetter city fullStyle c st in
        let '(rest, st2) := collect style city r (S i) st1 in
        ((info, Some outcome) :: rest, st2)
  end.

(** [x?.isFallback || false] *)
Definition flag (f : obj -> option bool) (img : option obj) : bool :=
  match img with
  | Some o => match f o with Some true => true | _ => false end
  | None => false
  end.

(** Lines 173-184: the final letter objects. *)
Definition finalize (style : string) (x : desc * option (option obj + string)) : desc :=
  let '(info, outcome) := x in
  match outcome with
  | None => info
  | Some out =>
      let img := match out with
                 | inl v => v
                 | inr _ => Some (mkObj (Some (generateFallbackLetterSVG (d_value info) style
                                                 (rnd (match d_index info with Some i => i | None => 0 end))))
                                        None None (Some true) None)
                 end in
      mkDesc (d_type info) (d_value info) (d_style info) (d_case info) (d_fullStyle info)
             (d_index info) None (Some img)
             (Some (flag o_isFallback img)) (Some (flag o_isGenerated img))
  end.

(** [getLettersFromText(text, options)] *)
Definition getLettersFromText (cfg : defaults) (o : options) (text : jsval) (st : St)
  : list desc * St :=
  let st := ensure_initialized st in
  let style := match opt_style o with Some s => s | None => def_fontStyle cfg end in
  let city := match opt_city o with Some s => s | None => def_city cfg end in
  let caseOption := match opt_caseOption o with Some s => s | None => def_caseOption cfg end in
  let text := match text with
              | JStr s => if String.eqb s "" then def_text cfg else s
              | JOther => def_text cfg
              end in
  let processedText := case_transform caseOption text in
  let '(pairs, st') := collect style city (chars processedText) 0 st in
  (map (finalize style) pairs, st').

End Pipeline.

End Typography.

(** The typography manager over the concrete asset manager and letter
    generator. *)
Module TypographyManager.

Import Loader AssetManager LetterLoading LetterGenerator.

Record tm_state := mkTM { tm_initialized : bool; tm_am : am_state; tm_lg : lg_state }.

Definition tm_fresh : tm_state := mkTM false fresh lg_fresh.

Section Concrete.

Variable is_local : bool.
Variable exists_ : string -> bool.
Variable rand : nat -> nat.
(** What the promise a suspended [assetManager.loadLetter] caller waits
    for settles to, once its image events have run. *)
Variable eventual : nat -> pstate.

(** Steps bound of one call: detection has at most
    [2 * 14 * 6 + 14 + 3] steps. *)
Definition fuel : nat := 400.

(** A [loadLetter] caller run alone until it returns or suspends. *)
Fixpoint ll_solo (n : nat) (pc : ll_pc) (st : am_state) : ll_pc * am_state :=
  match n with
  | 0 => (pc, st)
  | S n' =>
      match pc with
      | LDone _ => (pc, st)
      | _ => let '(pc', st') := ll_step is_local exists_ rand possibleBasePaths pathTemplates pc st in
             match pc', pc with
             | LAwaitOwn _ _ _ _, LAwaitOwn _ _ _ _ | LAwaitJoin _, LAwaitJoin _ => (pc', st')
             | _, _ => ll_solo n' pc' st'
             end
      end
  end.

(** [TypographyManager.loadLetter(city, style, letter)]: the asset
    manager's answer, or on its rejection the generator's letter. *)
Definition tm_loadLetter (city style : string) (letter : ascii) (st : tm_state)
  : (option obj + string) * tm_state :=
  let '(pc, am1) := ll_solo fuel (LStart city style letter "01") (tm_am st) in
  let outcome := match pc with
                 | LDone s => s
                 | LAwaitOwn _ _ _ p | LAwaitJoin p => eventual p
                 | _ => Pending
                 end in
  match outcome with
  | Fulfilled v => (inl v, mkTM (tm_initialized st) am1 (tm_lg st))
  | Rejected _ | Pending =>
      let '(ref, lg1) := generateLetter letter style (Some "01") (Some city)
                                        (rand (draws am1)) (tm_lg st) in
      (inl (deref lg1 ref), mkTM (tm_initialized st) am1 lg1)
  end.

(** [_prewarmCache()]: the synchronous parts of its eight calls. *)
Definition prewarm (st : tm_state) : tm_state :=
  fold_left (fun s lt => snd (tm_loadLetter "NYC" (snd lt) (fst lt) s))
            (list_prod ["A"%char; "B"%char; "E"%char; "T"%char] ["sans-upper"; "sans-lower"]) st.

(** [TypographyManager.initialize()] *)
Definition tm_initialize (st : tm_state) : tm_state :=
  if tm_initialized st then st
  else
    let '(_, am1) := run_solo is_local exists_ rand possibleBasePaths pathTemplates fuel IStart (tm_am st) in
    let st1 := prewarm (mkTM (tm_initialized st) am1 (tm_lg st)) in
    mkTM true (tm_am st1) (tm_lg st1).

Definition getLettersFromText (cfg : defaults) (o : options) (text : jsval) (st : tm_state)
  : list desc * tm_state :=
  Typography.getLettersFromText tm_state tm_initialize tm_loadLetter rand cfg o text st.

End Concrete.

End TypographyManager.

(* ------------------------------------------------------------------ *)
(** ** [letterSelector.js] over the "FIXED VERSION" database *)

Module Selector.

Import FixedDB.

Definition availableStyles : list string := ["sans"; "serif"; "mono"; "script"; "decorative"].

Section Sel.

(** The database flags, fixed for the duration of one selection. *)
Variable db : db_state.
(** Probe answers of [pathExists]. *)
Variable probe : string -> bool.
(** The synthesizer's random draw while resolving the [i]-th character. *)
Variable rnd : nat -> nat.
(** [Math.floor(Math.random() * variants.length)] for the [i]-th character. *)
Variable pick : nat -> nat -> nat.
(** [Math.floor(Math.random() * this.availableStyles.length)] for the
    [i]-th character, taken modulo 5 since [Math.random() < 1]. *)
Variable random_index : nat -> nat.
(** What [await this.database.loadImage(path)] yields for a path that is not
    an SVG data URL: a value, or a rejection (caught by the selector). *)
Variable remote : string -> option obj + string.
(** [canvas.toDataURL('image/png')] of the placeholder drawn for a character. *)
Variable canvas_png : ascii -> string.

(** [createPlaceholderImage(char, style)]: both of its callbacks resolve to
    an object 40 wide and 60 high. *)
Definition placeholder (c : ascii) : obj := mkObj (Some (canvas_png c)) (Some 40) (Some 60) None None.

(** [await this.database.loadImage(path)] of the FIXED class: [null] for a
    missing path, an unloaded [Image] (width 0) for an SVG data URL. *)
Definition loadImage (path : option string) : option obj + string :=
  match path with
  | None => inl None
  | Some p =>
      if String.eqb p "" then inl None
      else if startsWith p "data:image/svg+xml" then inl (Some (Loader.unloaded p))
      else remote p
  end.

Definition placeholder_desc (c : ascii) (style : string) : desc :=
  mkDesc "letter" c (Some style) None None None None (Some (Some (placeholder c)))
         (Some true) None.

(** The body of the [for (const char of text)] loop of
    [selectLettersForText] (lines 233-301) and of
    [selectLettersWithRandomStyles] (lines 62-134), for the [i]-th
    character resolved in [style]. *)
Definition select_one (style location : string) (i : nat) (c : ascii) : desc :=
  if Ascii.eqb c " "%char then mkDesc "space" c None None None None None None None None
  else if negb (is_alnum c) then mkDesc "special" c None None None None None None None None
  else
    let variants := fst (getLetterVariants probe db c style location false (rnd i)) in
    match variants with
    | [] => placeholder_desc c style
    | _ =>
        let path := nth_error variants (pick i (List.length variants)) in
        let img := match loadImage path with inl v => v | inr _ => None end in
        match img with
        | Some o =>
            if falsy_dim (o_width o) || falsy_dim (o_height o) then placeholder_desc c style
            else
              let p := match path with Some p => p | None => "" end in
              mkDesc "letter" c (Some style) None None None (Some p) (Some (Some o))
                     (Some (includes p "/fallback/")) None
        | None => placeholder_desc c style
        end
    end.

Fixpoint select_from (style_of : nat -> string) (location : string) (cs : list ascii) (i : nat)
  : list desc :=
  match cs with
  | [] => []
  | c :: r => select_one (style_of i) location i c :: select_from style_of location r (S i)
  end.

(** [selectLettersForText(text, style, location)] *)
Definition selectLettersForText (text style location : string) : list desc :=
  if String.eqb text "" then [] else select_from (fun _ => style) location (chars text) 0.

(** [selectLettersWithRandomStyles(text, location)] *)
Definition selectLettersWithRandomStyles (text location : string) : list desc :=
  if String.eqb text "" then []
  else select_from (fun i => nth (random_index i mod 5) availableStyles "sans")
                   location (chars text) 0.

(** The destructured [options] of [getSelectedLetters]: [None] for an
    absent key (its default applies). *)
Record sel_options := mkSel {
  s_text : option string; s_style : option string; s_city : option string;
  s_caseOption : option string
}.

(** [getSelectedLetters(options)]; [None] when [options] is not an object. *)
Definition getSelectedLetters (options : option sel_options) : list desc :=
  match options with
  | None => []
  | Some o =>
      let text := match s_text o with Some t => t | None => "" end in
      let style := match s_style o with Some t => t | None => "sans" end in
      let city := match s_city o with Some t => t | None => "NYC" end in
      let caseOption := match s_caseOption o with Some t => t | None => "mixed" end in
      let processedText := case_transform caseOption text in
      if String.eqb style "random" then selectLettersWithRandomStyles processedText city
      else selectLettersForText processedText style city
  end.

End Sel.

End Selector.

(* ------------------------------------------------------------------ *)
(** ** [database.js], second class (lines 400-701): paths and variants *)

Module SecondDB.

(** [LetterDatabase.styleFolderMap[k]] for the [static styleFolderMap]
    object literal of the second class (it has no [random] key): its own
    keys, then the members it inherits; [None] is [undefined]. *)
Definition styleFolderMap (k : string) : option string :=
  if String.eqb k "sans" then Some "sans"
  else if String.eqb k "serif" then Some "serif"
  else if String.eqb k "mono" then Some "monospace"
  else if String.eqb k "script" then Some "script"
  else if String.eqb k "decorative" then Some "decorative"
  else proto_member k.

(** [_getFontFamilyForStyle(style)] *)
Definition getFontFamilyForStyle (style : string) : string :=
  if String.eqb style "sans" then "Arial, Helvetica, sans-serif"
  else if String.eqb style "serif" then "Georgia, " ++ dq ++ "Times New Roman" ++ dq ++ ", serif"
  else if String.eqb style "monospace" then dq ++ "Courier New" ++ dq ++ ", Courier, monospace"
  else if String.eqb style "script" then dq ++ "Comic Sans MS" ++ dq ++ ", cursive, sans-serif"
  else if String.eqb style "decorative" then "Impact, fantasy"
  else "sans-serif".

(** [/^[a-zA-Z0-9]$/.test(character)] *)
Definition single_alnum (s : string) : bool :=
  match s with
  | String c EmptyString => is_alnum c
  | _ => false
  end.

(** [getFallbackPath(character, styleKey)] *)
Definition getFallbackPath (character styleKey : string) : string :=
  let character := if single_alnum character then character else "?" in
  let styleDir := match styleFolderMap styleKey with Some d => d | None => "sans" end in
  let font := getFontFamilyForStyle styleDir in
  let svg :=
    nl ++ "      <svg " ++ attr "xmlns" "http://www.w3.org/2000/svg" ++ " "
       ++ attr "width" "40" ++ " " ++ attr "height" "60" ++ " "
       ++ attr "viewBox" "0 0 40 60" ++ ">"
    ++ nl ++ "        <rect " ++ attr "width" "40" ++ " " ++ attr "height" "60" ++ " "
       ++ attr "fill" "#f0f0f0" ++ " " ++ attr "stroke" "#ccc" ++ " "
       ++ attr "stroke-width" "1" ++ "/>"
    ++ nl ++ "        <text " ++ attr "x" "20" ++ " " ++ attr "y" "35" ++ " "
       ++ attr "font-family" font ++ " " ++ attr "font-size" "30" ++ " "
       ++ attr "fill" "#333" ++ " " ++ attr "text-anchor" "middle" ++ " "
       ++ attr "dominant-baseline" "middle" ++ ">" ++ character ++ "</text>"
    ++ nl ++ "      </svg>" in
  "data:image/svg+xml;charset=utf-8," ++ encodeURIComponent svg.

(** [getLetterPath(character, styleKey, location, variantIndex)]; [None]
    for [null]. *)
Definition getLetterPath (character styleKey location : string) (variantIndex : nat)
  : option string :=
  if String.eqb character "" then None
  else if String.eqb styleKey "" then None
  else if String.eqb location "" then None
  else if negb (single_alnum character) then None
  else
    let letter := toUpperCase character in
    let caseType := if String.eqb character letter then "upper" else "lower" in
    let idx := pad2 variantIndex in
    match styleFolderMap styleKey with
    | None => None
    | Some styleDir =>
        Some ("assets/Alphabet/cities/" ++ location ++ "/alphabet/" ++ letter ++ "/"
              ++ styleDir ++ "-" ++ caseType ++ "/" ++ idx ++ ".jpg")
    end.

Section Variants2.

(** The answer of the browser to one probe of [pathExists] (load within
    3 s). *)
Variable probe : string -> bool.

(** [pathExists(path)]: the answer, and the paths actually requested. *)
Definition pathExists (path : string) : bool * list string :=
  if String.eqb path "" then (false, []) else (probe path, [path]).

(** [getLetterVariants(character, styleKey, location)]: the paths it
    returns, and the paths it requested, in order. *)
Definition getLetterVariants (character styleKey location : string)
  : list string * list string :=
  let '(found, requested) :=
    fold_left (fun (acc : list string * list string) (i : nat) =>
                 let '(found, requested) := acc in
                 match getLetterPath character styleKey location i with
                 | None => (found, requested)
                 | Some path =>
                     let '(exists_, req) := pathExists path in
                     (if exists_ then (found ++ [path])%list else found, (requested ++ req)%list)
                 end)
              [1; 2; 3; 4; 5] ([], []) in
  match found with
  | [] => ([getFallbackPath character styleKey], requested)
  | _ => (found, requested)
  end.

End Variants2.

End SecondDB.

(* ------------------------------------------------------------------ *)
(** ** [utils.js]: [debounce] *)

(** [debounce(fn, wait, immediate)] as an event machine: a call of the
    debounced function, or the firing of its pending timer ([wait] ms with
    no call in between).  [pending] is [timeout] with the arguments its
    callback captured; [invoked] the arguments [fn] was applied to, in
    order. *)
Module Debounce.

Section Debounced.

Variable A : Type.

Record dstate := mkDS { pending : option A; invoked : list A }.

Inductive devent := DCall (args : A) | DFire.

Variable immediate : bool.

Definition dstep (st : dstate) (e : devent) : dstate :=
  match e with
  | DCall args =>
      (* callNow = immediate && timeout === null; clearTimeout; setTimeout *)
      let callNow := immediate && match pending st with None => true | Some _ => false end in
      mkDS (Some args) (if callNow then (invoked st ++ [args])%list else invoked st)
  | DFire =>
      match pending st with
      | None => st
      | Some args => mkDS None (if immediate then invoked st else (invoked st ++ [args])%list)
      end
  end.

Definition drun (evs : list devent) (st : dstate) : dstate := fold_left dstep evs st.

End Debounced.

Arguments mkDS {A}.
Arguments pending {A}.
Arguments invoked {A}.
Arguments DCall {A}.
Arguments DFire {A}.
Arguments dstep {A}.
Arguments drun {A}.

End Debounce.

(* ------------------------------------------------------------------ *)
(** ** [renderer.js] and the two [updateCanvas] of [app.js] *)

Module Render.

(** [letterWidth], [letterHeight], [letterSpacing], [lineHeight]. *)
Record dims := mkDims { letterWidth : nat; letterHeight : nat; letterSpacing : nat;
                        lineHeight : nat }.

(** The constructor's values. *)
Definition initial_dims : dims := mkDims 40 60 5 80.

(** An element of the array given to [renderLetters]: the fields
    [_updateLetters] reads. *)
Record rin := mkRin { ri_type : string; ri_value : ascii; ri_url : option string }.

(** An element of the [letters] array of the draw loop. *)
Record rletter := mkRl { rl_type : string; rl_value : ascii; rl_style : option string;
                         rl_img : option obj }.

(** [_getStyleFromPath(path)] *)
Definition getStyleFromPath (path : string) : string :=
  if includes path "sans" then "sans"
  else if includes path "serif" then "serif"
  else if includes path "mono" || includes path "monospace" then "mono"
  else if includes path "script" then "script"
  else if includes path "decorative" then "decorative"
  else "default".

Section Update.

(** [p.loadImage(url, ok, err)]: the image, or [None] when the error
    callback runs. *)
Variable p5load : string -> option obj.

(** The body of the loop of [_updateLetters]. *)
Definition update_one (lt : rin) : rletter :=
  let plain := mkRl (ri_type lt) (ri_value lt) None None in
  match ri_url lt with
  | Some url =>
      if String.eqb (ri_type lt) "letter" && negb (String.eqb url "") then
        if startsWith url "data:image/svg+xml" then
          mkRl "letter" (ri_value lt) (Some (getStyleFromPath url)) None
        else match p5load url with
             | Some img => mkRl "letter" (ri_value lt) None (Some img)
             | None => mkRl "letter" (ri_value lt) (Some (getStyleFromPath url)) None
             end
      else plain
  | None => plain
  end.

(** [_updateLetters(raw)]: the new [letters]. *)
Definition updateLetters (raw : list rin) : list rletter := map update_one raw.

End Update.

(** What one element of [letters] makes the draw loop paint: nothing
    (a space), [p.image], [_drawSpecialChar], or [_drawFallbackLetter]
    with the fill and background colours it picks. *)
Inductive op := OSpace | OImage (img : obj) | OSpecial (c : ascii)
              | OFallback (c : ascii) (fill bg : string).

(** [this.styleColors[key]]: (fill, bg). *)
Definition styleColors (k : string) : option (string * string) :=
  if String.eqb k "sans" then Some ("#3a7ca5", "#f0f8ff")
  else if String.eqb k "serif" then Some ("#d63030", "#fff0f0")
  else if String.eqb k "mono" then Some ("#2d882d", "#f0fff0")
  else if String.eqb k "script" then Some ("#aa7c39", "#fff8e6")
  else if String.eqb k "decorative" then Some ("#9933cc", "#f8f0ff")
  else if String.eqb k "default" then Some ("#666666", "#f5f5f5")
  else None.

(** [_drawFallbackLetter]: [this.styleColors[style.split('-')[0]] ||
    this.styleColors.default]. *)
Definition fallbackColors (style : string) : string * string :=
  match styleColors (before_dash style) with
  | Some c => c
  | None => ("#666666", "#f5f5f5")
  end.

(** The last two branches of the loop body: [_drawSpecialChar], or
    [_drawFallbackLetter(p, lt.value, x, y, lt.style || 'default')]. *)
Definition draw_text (lt : rletter) : op :=
  if String.eqb (rl_type lt) "special" || String.eqb (rl_type lt) "placeholder"
  then OSpecial (rl_value lt)
  else
    let style := match rl_style lt with
                 | Some s => if String.eqb s "" then "default" else s
                 | None => "default" end in
    let '(fill, bg) := fallbackColors style in
    OFallback (rl_value lt) fill bg.

Definition draw_one (lt : rletter) : op :=
  if String.eqb (rl_type lt) "space" then OSpace
  else match rl_img lt with
       | Some img => if String.eqb (rl_type lt) "letter" then OImage img else draw_text lt
       | None => draw_text lt
       end.

(** The [for (const lt of letters)] loop of [p.draw]: the position each
    letter is painted at, what is painted, and the final [y].  [maxW] is
    [p.width - 20] (a canvas narrower than 20 pixels gives a negative
    [maxW] in JavaScript and 0 here; [x] is at least 10 and exceeds both). *)
Fixpoint layout (d : dims) (maxW x y : nat) (ls : list rletter) : list (nat * nat * op) * nat :=
  match ls with
  | [] => ([], y)
  | lt :: r =>
      let x1 := x + letterWidth d + letterSpacing d in
      let '(x2, y2) := if maxW <? x1 then (10, y + lineHeight d) else (x1, y) in
      let '(rest, yf) := layout d maxW x2 y2 r in
      ((x, y, draw_one lt) :: rest, yf)
  end.

(** What one [p.draw] shows: the placeholder text, or the letters and the
    canvas height after [resizeCanvas]. *)
Inductive frame := Placeholder | Glyphs (ops : list (nat * nat * op)) (height : nat).

Definition draw (d : dims) (width height : nat) (letters : list rletter) : frame :=
  match letters with
  | [] => Placeholder
  | _ =>
      let '(ops, y) := layout d (width - 20) 10 20 letters in
      let neededH := y + lineHeight d in
      Glyphs ops (if height <? neededH then neededH else height)
  end.

(** The object each [updateCanvas] of [app.js] hands to [renderLetters]
    for a letter descriptor: the first passes the selector's objects as
    they are (line 130), the second maps them to [{type, value, image,
    isFallback}] (lines 481-486).  Neither has a [url] field. *)
Definition renderer_input (d : desc) : rin := mkRin (d_type d) (d_value d) None.

End Render.

(* ================================================================== *)
(** * Spec-side readings used by the statements *)

(** The probe sequence the detection claim describes: for each base in
    order, each template in order, the canonical test path, up to and
    including the first one that exists. *)
Fixpoint tmpl_until (exists_ : string -> bool) (b : string) (ts : list string)
  : list string * bool :=
  match ts with
  | [] => ([], false)
  | t :: r =>
      let p := AssetManager.testPath b t in
      if exists_ p then ([p], true)
      else let '(l, f) := tmpl_until exists_ b r in (p :: l, f)
  end.

Fixpoint cross_until (exists_ : string -> bool) (bs ts : list string) : list string :=
  match bs with
  | [] => []
  | b :: r => let '(l, f) := tmpl_until exists_ b ts in
              if f then l else (l ++ cross_until exists_ r ts)%list
  end.

(** A step budget large enough for one detection run. *)
Definition detect_bound (bs ts : list string) : nat :=
  2 + List.length bs * (2 * List.length ts + 2).

(** The text a call of [getLettersFromText] resolves. *)
Definition effective_text (cfg : defaults) (t : jsval) : string :=
  match t with
  | JStr s => if String.eqb s "" then def_text cfg else s
  | JOther => def_text cfg
  end.

Definition effective_case (cfg : defaults) (o : options) : string :=
  match opt_caseOption o with Some s => s | None => def_caseOption cfg end.

(** Promise states other than a rejection. *)
Definition not_rejected (s : Loader.pstate) : Prop :=
  match s with Loader.Rejected _ => False | _ => True end.

Definition no_rejection (st : Loader.state) : Prop :=
  Forall (fun x => not_rejected (snd x)) (Loader.promises st).

(** Steps a detection run needs for the bases [bs] and the templates. *)
Definition m_bases (templates bs : list string) : nat :=
  1 + List.length bs * (2 * List.length templates + 2).

(** A caller of [initialize] that has not started, or has returned. *)
Definition entry_or_done (pc : AssetManager.init_pc) : Prop :=
  pc = AssetManager.IStart \/ exists r, pc = AssetManager.IDone r.

Definition entry_b (pc : AssetManager.init_pc) : bool :=
  match pc with AssetManager.IStart | AssetManager.IDone _ => true | _ => false end.

(** A [loadLetter] caller that is not inside [initialize]. *)
Definition not_init (pc : LetterLoading.ll_pc) : Prop :=
  match pc with LetterLoading.LInit _ _ _ _ _ => False | _ => True end.

(** Detection is done and the probes issued so far are [ps]. *)
Definition quiet (ps : list string) (st : AssetManager.am_state) : Prop :=
  AssetManager.initialized st = true /\ AssetManager.probes st = ps.

(** The paths [getLetterVariants] of the second class requests, in order:
    one per variant index for which [getLetterPath] gives a path. *)
Definition variant_paths (c k loc : string) : list string :=
  flat_map (fun i => match SecondDB.getLetterPath c k loc i with Some p => [p] | None => [] end)
           [1; 2; 3; 4; 5].

(** Characters that may appear unescaped in a [data:] URL: the unreserved
    characters of [encodeURIComponent] and [%] [:] [/] [+] [;] [=] [,]. *)
Definition url_char (c : ascii) : bool :=
  uri_unreserved c || existsb (Nat.eqb (code c)) [37; 58; 47; 43; 59; 61; 44].

(** A style key with no ['-'] in it. *)
Definition no_dash (s : string) : bool :=
  forallb (fun c => negb (Ascii.eqb c "-"%char)) (chars s).

(** A sequence of [generateLetter] calls, each with its arguments
    (character, style, variant, city, random draw). *)
Definition generate_all (calls : list (ascii * string * option string * option string * nat))
  (st : LetterGenerator.lg_state) : LetterGenerator.lg_state :=
  fold_left (fun st x => let '(ch, style, v, c, r) := x in
                         snd (LetterGenerator.generateLetter ch style v c r st))
            calls st.

(** The generator's bookkeeping: one cache entry and one heap object per
    generated letter, and every cached reference inside the heap. *)
Definition gen_inv (st : LetterGenerator.lg_state) : Prop :=
  List.length (LetterGenerator.lg_cache st) = LetterGenerator.generated st /\
  List.length (LetterGenerator.heap st) = LetterGenerator.generated st /\
  (forall k ref, lookup k (LetterGenerator.lg_cache st) = Some ref ->
                 ref < List.length (LetterGenerator.heap st)).

(** The descriptor type the character tests of the loops assign. *)
Definition char_kind (c : ascii) : string :=
  if Ascii.eqb c " "%char then "space" else if negb (is_alnum c) then "special" else "letter".

(** The descriptor carries an image object with truthy width and height. *)
Definition has_image (d : desc) : Prop :=
  exists o, d_image d = Some (Some o) /\ falsy_dim (o_width o) = false /\ falsy_dim (o_height o) = false.

(** What the renderer draws for a descriptor that [updateCanvas] passed
    through its [{type, value}] mapping. *)
Definition app_glyph (d : desc) : Render.op :=
  if String.eqb (d_type d) "space" then Render.OSpace
  else if String.eqb (d_type d) "special" || String.eqb (d_type d) "placeholder"
  then Render.OSpecial (d_value d)
  else Render.OFallback (d_value d) "#666666" "#f5f5f5".

(** The asset manager after a detection that found no assets, with no
    letter load in flight. *)
Definition fallback_mode (st : AssetManager.am_state) : Prop :=
  AssetManager.initialized st = true /\ AssetManager.assetDetectionCompleted st = true /\
  AssetManager.assetsDetected st = false /\ AssetManager.loadingPromises st = [].

(** A [loadLetter] caller that has not started or has returned. *)
Definition start_or_done (pc : LetterLoading.ll_pc) : Prop :=
  match pc with LetterLoading.LStart _ _ _ _ | LetterLoading.LDone _ => True | _ => False end.

(** No image fetch and no probe between the two states. *)
Definition same_net (st st' : AssetManager.am_state) : Prop :=
  AssetManager.lfetches st' = AssetManager.lfetches st /\ AssetManager.probes st' = AssetManager.probes st.

(* ================================================================== *)
(** * Concrete inputs *)

(** The resolved text of a call with [""] is the default text. *)
Definition C1_cfg : defaults := mkDefaults "sans" "NYC" "mixed" "StreetType".

Definition C2_state : Loader.state :=
  fst (Loader.run Loader.SecondVersion [Loader.Call "a.jpg"] Loader.init).

Definition C2_fetch : Loader.fetch := Loader.mkFetch "a.jpg" 0 true false.

Definition C2_img : obj := mkObj (Some "a.jpg") (Some 120) (Some 180) None None.

(** Two [loadLetter] calls for the same letter after a detection that
    found the first pattern; caller 0 runs, then caller 1, then the image
    fails, then both resume. *)
Definition C4_detected : AssetManager.am_state :=
  snd (AssetManager.run_solo false (fun _ => true) (fun n => n) AssetManager.possibleBasePaths
         AssetManager.pathTemplates 400 AssetManager.IStart AssetManager.fresh).

Definition C4_run : list LetterLoading.ll_pc * AssetManager.am_state :=
  LetterLoading.ll_run false (fun _ => true) (fun n => n) AssetManager.possibleBasePaths
    AssetManager.pathTemplates
    [LetterLoading.Run 0; LetterLoading.Run 1; LetterLoading.ImgError 0;
     LetterLoading.Run 0; LetterLoading.Run 1]
    [LetterLoading.LStart "NYC" "sans-upper" "A" "01"; LetterLoading.LStart "NYC" "sans-upper" "A" "01"]
    C4_detected.

(** Two callers of [initialize] interleaved from the constructor's state,
    no asset reachable. *)
Definition C5_run : list AssetManager.init_pc * AssetManager.am_state :=
  AssetManager.run_sched false (fun _ => false) (fun n => n) AssetManager.possibleBasePaths
    AssetManager.pathTemplates [0; 1; 0; 1; 0; 1] [AssetManager.IStart; AssetManager.IStart]
    AssetManager.fresh.

(** The asset manager after a finished detection that found nothing. *)
Definition C5_detected : AssetManager.am_state :=
  snd (AssetManager.run_solo false (fun _ => false) (fun n => n) AssetManager.possibleBasePaths
         AssetManager.pathTemplates 400 AssetManager.IStart AssetManager.fresh).

Definition C5_tm : TypographyManager.tm_state :=
  TypographyManager.mkTM true C5_detected LetterGenerator.lg_fresh.

(** Two bases, two templates, and only the probe of base 1 with template 1
    succeeds. *)
Definition C6_bases : list string := [""; "assets/"].

Definition C6_templates : list string := firstn 2 AssetManager.pathTemplates.

Definition C6_exists (p : string) : bool :=
  String.eqb p (AssetManager.testPath "assets/" (nth 1 C6_templates "")).

Definition C7_opts : options := mkOptions (Some "sans") (Some "NYC") (Some "mixed").

(** An asset manager whose detection finished without finding assets. *)
Definition fb_state : AssetManager.am_state :=
  AssetManager.mkAM [] [] [] [] [] 0 "assets/" true None false true 0 0 0 0 [] 0.

(* ================================================================== *)
(** * Theorems *)

(** ** Typography pipeline: shape of the result *)

Section TypographyShape.

Variable St : Type.
Variable init : St -> St.
Variable load : string -> string -> ascii -> St -> (option obj + string) * St.
Variable rnd : nat -> nat.

Lemma finalize_value_index : forall style x,
  d_value (Typography.finalize rnd style x) = d_value (fst x) /\
  d_index (Typography.finalize rnd style x) = d_index (fst x).
Proof.
  intros style [info [out|]]; simpl; auto.
Qed.

Lemma collect_shape : forall style city cs i st,
  map d_value (map (Typography.finalize rnd style) (fst (Typography.collect St load style city cs i st))) = cs /\
  map d_index (map (Typography.finalize rnd style) (fst (Typography.collect St load style city cs i st)))
    = map Some (seq i (List.length cs)).
Proof.
  intros style city cs; induction cs as [|c r IH]; intros i st; simpl; [auto|].
  destruct (Ascii.eqb c " "%char) eqn:Hs.
  - destruct (Typography.collect St load style city r (S i) st) as [rest st'] eqn:E.
    simpl. destruct (IH (S i) st) as [H1 H2]. rewrite E in H1, H2. simpl in *.
    rewrite H1, H2. auto.
  - destruct (negb (is_alnum c)).
    + destruct (Typography.collect St load style city r (S i) st) as [rest st'] eqn:E.
      simpl. destruct (IH (S i) st) as [H1 H2]. rewrite E in H1, H2. simpl in *.
      rewrite H1, H2. auto.
    + destruct (load city _ c st) as [outcome st1].
      destruct (Typography.collect St load style city r (S i) st1) as [rest st2] eqn:E.
      simpl. destruct (IH (S i) st1) as [H1 H2]. rewrite E in H1, H2. simpl in *.
      rewrite H1, H2. auto.
Qed.

Lemma getLettersFromText_shape : forall cfg o t st,
  let res := fst (Typography.getLettersFromText St init load rnd cfg o t st) in
  map d_value res = chars (case_transform (effective_case cfg o) (effective_text cfg t)) /\
  map d_index res = map Some (seq 0 (List.length (chars (case_transform (effective_case cfg o)
                                                           (effective_text cfg t))))).
Proof.
  intros cfg o t st res. unfold res, Typography.getLettersFromText.
  match goal with |- context [Typography.collect St load ?sty ?cty ?cs 0 ?s0] =>
    destruct (Typography.collect St load sty cty cs 0 s0) as [pairs st'] eqn:E;
    pose proof (collect_shape sty cty cs 0 s0) as H end.
  rewrite E in H. simpl in *. unfold effective_case, effective_text.
  destruct t; exact H.
Qed.

End TypographyShape.

(** ** Selector: one descriptor per character *)

Lemma chars_nil_iff : forall s, chars s = [] <-> s = "".
Proof. intros [|c s]; simpl; split; intro H; congruence. Qed.

Lemma map_str_nil_iff : forall f s, map_str f s = "" <-> s = "".
Proof. intros f [|c s]; simpl; split; intro H; congruence. Qed.

Lemma case_transform_nil_iff : forall co s, case_transform co s = "" <-> s = "".
Proof.
  intros co s; unfold case_transform, toUpperCase, toLowerCase.
  destruct (String.eqb co "upper"); [apply map_str_nil_iff|].
  destruct (String.eqb co "lower"); [apply map_str_nil_iff|]. tauto.
Qed.

Lemma map_str_length : forall f s, String.length (map_str f s) = String.length s.
Proof. intros f s; induction s; simpl; auto. Qed.

Lemma case_transform_length : forall co s,
  String.length (case_transform co s) = String.length s.
Proof.
  intros co s; unfold case_transform, toUpperCase, toLowerCase.
  destruct (String.eqb co "upper"); [apply map_str_length|].
  destruct (String.eqb co "lower"); [apply map_str_length|]. reflexivity.
Qed.

Lemma chars_length : forall s, List.length (chars s) = String.length s.
Proof. induction s; simpl; auto. Qed.

Section SelectorShape.

Variable db : FixedDB.db_state.
Variable probe : string -> bool.
Variable rnd : nat -> nat.
Variable pick : nat -> nat -> nat.
Variable random_index : nat -> nat.
Variable remote : string -> option obj + string.
Variable canvas_png : ascii -> string.

Lemma select_one_value : forall style loc i c,
  d_value (Selector.select_one db probe rnd pick remote canvas_png style loc i c) = c.
Proof.
  intros style loc i c. unfold Selector.select_one.
  repeat match goal with
         | |- context [if ?b then _ else _] => destruct b
         | |- context [match ?x with _ => _ end] => destruct x
         end; reflexivity.
Qed.

Lemma select_from_value : forall style_of loc cs i,
  map d_value (Selector.select_from db probe rnd pick remote canvas_png style_of loc cs i) = cs.
Proof.
  intros style_of loc cs; induction cs as [|c r IH]; intro i; simpl; [reflexivity|].
  rewrite select_one_value, IH. reflexivity.
Qed.

Lemma select_from_nth : forall style_of loc cs i k,
  nth_error (Selector.select_from db probe rnd pick remote canvas_png style_of loc cs i) k
  = option_map (Selector.select_one db probe rnd pick remote canvas_png (style_of (i + k)) loc (i + k))
               (nth_error cs k).
Proof.
  intros style_of loc cs; induction cs as [|c r IH]; intros i k; simpl.
  - destruct k; reflexivity.
  - destruct k as [|k]; simpl.
    + rewrite Nat.add_0_r. reflexivity.
    + rewrite IH. rewrite Nat.add_succ_r. reflexivity.
Qed.

Lemma getSelectedLetters_value : forall o,
  map d_value (Selector.getSelectedLetters db probe rnd pick random_index remote canvas_png (Some o))
  = chars (case_transform (match Selector.s_caseOption o with Some t => t | None => "mixed" end)
                          (match Selector.s_text o with Some t => t | None => "" end)).
Proof.
  intro o. unfold Selector.getSelectedLetters, Selector.selectLettersWithRandomStyles,
                  Selector.selectLettersForText.
  set (pt := case_transform _ _).
  destruct (String.eqb pt "") eqn:E.
  - apply String.eqb_eq in E. rewrite E.
    destruct (String.eqb _ "random"); reflexivity.
  - destruct (String.eqb _ "random"); apply select_from_value.
Qed.

End SelectorShape.

(** C1: for every text, [getSelectedLetters] returns one descriptor per
    character of the case-transformed text, in order (descriptor [k]
    carries character [k]); [getLettersFromText] does the same for the
    text it resolves, which is the argument when that is a non-empty
    string and [config.defaults.text] when it is [""] or not a string.
    Every loader outcome, a rejection included, is turned into a
    descriptor, so no call fails. *)
Theorem C1_one_descriptor_per_character :
  (forall (St : Type) init load rnd cfg o t (st : St),
     let res := fst (Typography.getLettersFromText St init load rnd cfg o t st) in
     map d_value res = chars (case_transform (effective_case cfg o) (effective_text cfg t)) /\
     map d_index res = map Some (seq 0 (String.length (effective_text cfg t))) /\
     (forall s, s <> "" -> effective_text cfg (JStr s) = s)) /\
  (forall db probe rnd pick random_index remote canvas_png o,
     map d_value (Selector.getSelectedLetters db probe rnd pick random_index remote canvas_png (Some o))
     = chars (case_transform (match Selector.s_caseOption o with Some t => t | None => "mixed" end)
                             (match Selector.s_text o with Some t => t | None => "" end))).
Proof.
  split.
  - intros St init load rnd cfg o t st res.
    destruct (getLettersFromText_shape St init load rnd cfg o t st) as [H1 H2].
    unfold res. split; [exact H1|]. split.
    + rewrite H2, chars_length, case_transform_length. reflexivity.
    + intros s Hs. simpl. destruct (String.eqb s "") eqn:E; [|reflexivity].
      apply String.eqb_eq in E. contradiction.
  - intros. apply getSelectedLetters_value.
Qed.

(** C1 (counterexample): [getLettersFromText("")] with the default text
    ["StreetType"] returns ten descriptors, not one per character of its
    (empty) argument (here from the manager's initial state, no asset
    reachable). *)
Lemma C1_counterexample :
  List.length (fst (TypographyManager.getLettersFromText false (fun _ => false) (fun n => n)
                      (fun _ => Loader.Pending) C1_cfg (mkOptions None None None) (JStr "")
                      TypographyManager.tm_fresh)) = 10 /\
  List.length (chars (case_transform "mixed" "")) = 0.
Proof. split; vm_compute; reflexivity. Qed.

(** C10: a text that is not a string, or is empty, is replaced by
    [config.defaults.text]: the call gives the same result and state as
    the call with the default text itself, and the descriptors are those
    of the (case-transformed) default text, so the result is empty
    exactly when the default text is. *)
Theorem C10_default_text_substitution :
  forall (St : Type) init load rnd cfg o (st : St),
    Typography.getLettersFromText St init load rnd cfg o JOther st
      = Typography.getLettersFromText St init load rnd cfg o (JStr (def_text cfg)) st /\
    Typography.getLettersFromText St init load rnd cfg o (JStr "") st
      = Typography.getLettersFromText St init load rnd cfg o (JStr (def_text cfg)) st /\
    map d_value (fst (Typography.getLettersFromText St init load rnd cfg o JOther st))
      = chars (case_transform (effective_case cfg o) (def_text cfg)) /\
    (fst (Typography.getLettersFromText St init load rnd cfg o JOther st) = [] <-> def_text cfg = "").
Proof.
  intros St init load rnd cfg o st.
  assert (Hd : Typography.getLettersFromText St init load rnd cfg o JOther st
               = Typography.getLettersFromText St init load rnd cfg o (JStr (def_text cfg)) st).
  { unfold Typography.getLettersFromText.
    destruct (String.eqb (def_text cfg) "") eqn:E; [|reflexivity].
    apply String.eqb_eq in E. rewrite E. reflexivity. }
  split; [exact Hd|]. split.
  { unfold Typography.getLettersFromText at 1. simpl. rewrite <- Hd. reflexivity. }
  destruct (getLettersFromText_shape St init load rnd cfg o JOther st) as [H _].
  simpl in H. split; [exact H|].
  split.
  - intro E. rewrite E in H. simpl in H. symmetry in H.
    apply chars_nil_iff, case_transform_nil_iff in H. exact H.
  - intro E. rewrite E in H.
    assert (Hc : case_transform (effective_case cfg o) "" = "")
      by (apply case_transform_nil_iff; reflexivity).
    rewrite Hc in H. simpl in H. apply map_eq_nil in H. exact H.
Qed.

(** ** The image loader *)

Module LoaderFacts.

Import Loader.

Lemma settle_not_rejected : forall p s m,
  not_rejected s -> Forall (fun x => not_rejected (snd x)) m ->
  Forall (fun x => not_rejected (snd x)) (settle p s m).
Proof.
  intros p s m Hs; induction m as [|[q s'] r IH]; intro H; simpl; [constructor|].
  inversion H as [|? ? Hq Hr]; subst.
  destruct s'; [destruct (Nat.eqb p q)|destruct (Nat.eqb p q)|];
    repeat constructor; auto; simpl in Hq; contradiction.
Qed.

Lemma call_second_no_rejection : forall path st,
  no_rejection st -> no_rejection (fst (call SecondVersion path st)).
Proof.
  intros path st H. unfold call.
  destruct (String.eqb path ""); [exact H|].
  destruct (lookup path (letterCache st)); [exact H|].
  destruct (lookup path (loadingPromises st)); [exact H|].
  unfold no_rejection; simpl. constructor; [exact I | exact H].
Qed.

Lemma fire_second_no_rejection : forall e st,
  no_rejection st -> no_rejection (fire SecondVersion e st).
Proof.
  intros [k img|k|k] st H; unfold fire; destruct (nth_error (fetches st) k) as [f|]; auto;
    [destruct (f_done f) | destruct (f_done f) | destruct (negb (f_timer f))]; auto;
    unfold no_rejection; simpl; apply settle_not_rejected; simpl; auto.
Qed.

Lemma run_second_no_rejection : forall acts st,
  no_rejection st -> no_rejection (fst (run SecondVersion acts st)).
Proof.
  induction acts as [|[path|e] r IH]; intros st H; cbn -[call fire]; [exact H| |].
  - destruct (call SecondVersion path st) as [st1 x] eqn:E1.
    pose proof (call_second_no_rejection path st H) as H1. rewrite E1 in H1.
    specialize (IH st1 H1). destruct (run SecondVersion r st1) as [st2 xs]. exact IH.
  - apply IH, fire_second_no_rejection, H.
Qed.

Lemma lookup_set_key : forall V k (v : V) m, lookup k (set_key k v m) = Some v.
Proof. intros. unfold set_key. simpl. rewrite String.eqb_refl. reflexivity. Qed.

Lemma lookup_remove_key : forall V k (m : list (string * V)), lookup k (remove_key k m) = None.
Proof.
  intros V k m; induction m as [|[k' v] r IH]; simpl; [reflexivity|].
  destruct (String.eqb k k') eqn:E; simpl.
  - exact IH.
  - rewrite E. exact IH.
Qed.

Lemma settle_pending : forall p s m,
  lookup_p p m = Some Pending -> lookup_p p (settle p s m) = Some s.
Proof.
  intros p s m; induction m as [|[q s'] r IH]; simpl; intro H; [discriminate|].
  destruct (Nat.eqb p q) eqn:E.
  - injection H as ->. simpl. rewrite E. simpl. rewrite ?E. reflexivity.
  - destruct s'; simpl; rewrite E; apply IH, H.
Qed.

End LoaderFacts.

Section LoaderEffects.

Import Loader LoaderFacts.

Lemma fire_onload_effect : forall v st k f img,
  nth_error (fetches st) k = Some f -> f_done f = false ->
  lookup_p (f_promise f) (promises st) = Some Pending ->
  let st' := fire v (OnLoad k img) st in
  lookup (f_path f) (letterCache st') = Some img /\
  lookup (f_path f) (loadingPromises st') = None /\
  lookup_p (f_promise f) (promises st') = Some (Fulfilled (Some img)).
Proof.
  intros v st k f img Hf Hd Hp st'. unfold st', fire. rewrite Hf, Hd. cbn [letterCache loadingPromises promises negb].
  rewrite lookup_set_key, lookup_remove_key, settle_pending by exact Hp. auto.
Qed.

Lemma fire_onerror_effect : forall v st k f,
  nth_error (fetches st) k = Some f -> f_done f = false ->
  lookup_p (f_promise f) (promises st) = Some Pending ->
  let st' := fire v (OnError k) st in
  lookup (f_path f) (loadingPromises st') = None /\
  lookup_p (f_promise f) (promises st') = Some (failure v (f_path f)).
Proof.
  intros v st k f Hf Hd Hp st'. unfold st', fire. rewrite Hf, Hd. cbn [letterCache loadingPromises promises negb].
  rewrite lookup_remove_key, settle_pending by exact Hp. auto.
Qed.

Lemma fire_ontimeout_effect : forall v st k f,
  nth_error (fetches st) k = Some f -> f_timer f = true ->
  lookup_p (f_promise f) (promises st) = Some Pending ->
  let st' := fire v (OnTimeout k) st in
  lookup (f_path f) (loadingPromises st') = None /\
  lookup_p (f_promise f) (promises st') = Some (timeout_outcome v (f_path f)).
Proof.
  intros v st k f Hf Ht Hp st'. unfold st', fire. rewrite Hf, Ht. cbn [letterCache loadingPromises promises negb].
  rewrite lookup_remove_key, settle_pending by exact Hp. auto.
Qed.

End LoaderEffects.

(** C2 (corrected): the second [loadImage] of [database.js] (lines
    622-699) never rejects: in every run of calls and browser callbacks
    from the initial state no promise is rejected; its [onload] caches the
    image under the path, clears the in-flight entry and fulfils the
    promise with the image; its [onerror] and its timeout clear the
    in-flight entry and fulfil the promise with the minimal object, 40
    wide and 60 high. (The FIXED [loadImage] rejects instead; see the
    counterexample.) *)
Theorem C2_second_loadImage_never_rejects :
  (forall acts, no_rejection (fst (Loader.run Loader.SecondVersion acts Loader.init))) /\
  (forall st k f img,
     nth_error (Loader.fetches st) k = Some f -> Loader.f_done f = false ->
     Loader.lookup_p (Loader.f_promise f) (Loader.promises st) = Some Loader.Pending ->
     let st' := Loader.fire Loader.SecondVersion (Loader.OnLoad k img) st in
     lookup (Loader.f_path f) (Loader.letterCache st') = Some img /\
     lookup (Loader.f_path f) (Loader.loadingPromises st') = None /\
     Loader.lookup_p (Loader.f_promise f) (Loader.promises st') = Some (Loader.Fulfilled (Some img))) /\
  (forall st k f,
     nth_error (Loader.fetches st) k = Some f -> Loader.f_done f = false ->
     Loader.lookup_p (Loader.f_promise f) (Loader.promises st) = Some Loader.Pending ->
     let st' := Loader.fire Loader.SecondVersion (Loader.OnError k) st in
     lookup (Loader.f_path f) (Loader.loadingPromises st') = None /\
     Loader.lookup_p (Loader.f_promise f) (Loader.promises st')
       = Some (Loader.Fulfilled (Some Loader.minimal))) /\
  (forall st k f,
     nth_error (Loader.fetches st) k = Some f -> Loader.f_timer f = true ->
     Loader.lookup_p (Loader.f_promise f) (Loader.promises st) = Some Loader.Pending ->
     let st' := Loader.fire Loader.SecondVersion (Loader.OnTimeout k) st in
     lookup (Loader.f_path f) (Loader.loadingPromises st') = None /\
     Loader.lookup_p (Loader.f_promise f) (Loader.promises st')
       = Some (Loader.Fulfilled (Some Loader.minimal))) /\
  o_width Loader.minimal = Some 40 /\ o_height Loader.minimal = Some 60.
Proof.
  split; [intro acts; apply LoaderFacts.run_second_no_rejection; constructor|].
  split; [intros; apply fire_onload_effect; assumption|].
  split; [intros; apply (fire_onerror_effect Loader.SecondVersion); assumption|].
  split; [intros; apply (fire_ontimeout_effect Loader.SecondVersion); assumption|].
  split; reflexivity.
Qed.

(** Witness of C2: the three callbacks of the first fetch of a run. *)
Lemma C2_witness :
  (lookup "a.jpg" (Loader.letterCache (Loader.fire Loader.SecondVersion (Loader.OnLoad 0 C2_img) C2_state))
     = Some C2_img /\
   lookup "a.jpg" (Loader.loadingPromises (Loader.fire Loader.SecondVersion (Loader.OnLoad 0 C2_img) C2_state))
     = None /\
   Loader.lookup_p 0 (Loader.promises (Loader.fire Loader.SecondVersion (Loader.OnLoad 0 C2_img) C2_state))
     = Some (Loader.Fulfilled (Some C2_img))) /\
  (lookup "a.jpg" (Loader.loadingPromises (Loader.fire Loader.SecondVersion (Loader.OnError 0) C2_state))
     = None /\
   Loader.lookup_p 0 (Loader.promises (Loader.fire Loader.SecondVersion (Loader.OnError 0) C2_state))
     = Some (Loader.Fulfilled (Some Loader.minimal))) /\
  (lookup "a.jpg" (Loader.loadingPromises (Loader.fire Loader.SecondVersion (Loader.OnTimeout 0) C2_state))
     = None /\
   Loader.lookup_p 0 (Loader.promises (Loader.fire Loader.SecondVersion (Loader.OnTimeout 0) C2_state))
     = Some (Loader.Fulfilled (Some Loader.minimal))).
Proof.
  destruct C2_second_loadImage_never_rejects as [_ [Hl [He [Ht _]]]].
  split; [apply (Hl C2_state 0 C2_fetch C2_img); reflexivity|].
  split; [apply (He C2_state 0 C2_fetch); reflexivity|].
  apply (Ht C2_state 0 C2_fetch); reflexivity.
Defined.

(** C2 (counterexample): the FIXED [loadImage] (lines 346-398) rejects
    its promise when the image fails to load. *)
Lemma C2_fixed_loadImage_rejects :
  Loader.lookup_p 0 (Loader.promises (fst (Loader.run Loader.FixedVersion
                       [Loader.Call "a.jpg"; Loader.Ev (Loader.OnError 0)] Loader.init)))
  = Some (Loader.Rejected "Failed to load image: a.jpg").
Proof. reflexivity. Qed.

(** ** Variant resolution of the FIXED database *)

Module VariantFacts.

Import FixedDB.

Section Probes.

Variable probe : string -> bool.

Lemma probe_variant_nothing : forall st c k loc i,
  (forall p, pathExists probe st p = false) ->
  probe_variant probe st c k loc i = ([], snd (probe_variant probe st c k loc i)).
Proof.
  intros st c k loc i H. unfold probe_variant.
  destruct (getLetterPath c k loc i) as [[p|] l]; simpl; [rewrite H|]; reflexivity.
Qed.

Lemma probe_all_nothing : forall st c k loc,
  (forall p, pathExists probe st p = false) ->
  fst (probe_all probe st c k loc [1; 2; 3]) = [].
Proof.
  intros st c k loc H. unfold probe_all. simpl.
  rewrite (probe_variant_nothing st c k loc 1 H), (probe_variant_nothing st c k loc 2 H),
          (probe_variant_nothing st c k loc 3 H).
  reflexivity.
Qed.

(** Outside the early return, a character none of whose candidate paths
    exists gets exactly one synthesized URL, in [fallback_style]. *)
Lemma getLetterVariants_nothing_found : forall st c k loc r,
  checked st && negb (assetsDetected st) = false ->
  (forall p, pathExists probe st p = false) ->
  fst (getLetterVariants probe st c k loc false r)
  = [generateFallbackLetterSVG c (fallback_style c k) r].
Proof.
  intros st c k loc r Hs H. unfold getLetterVariants. rewrite Hs. simpl.
  destruct (is_digit c || is_symbol c).
  - destruct (fst (getLetterPath c k loc 1)).
    + pose proof (probe_all_nothing st c k loc H) as E.
      destruct (probe_all probe st c k loc [1; 2; 3]) as [found l]. simpl in E. subst. reflexivity.
    + reflexivity.
  - pose proof (probe_all_nothing st c k loc H) as E.
    destruct (probe_all probe st c k loc [1; 2; 3]) as [found l]. simpl in E. subst. reflexivity.
Qed.

Lemma getLetterPath_unknown : forall c k loc i,
  is_alpha c = true -> is_digit c = false -> is_symbol c = false -> styleFolderMap k = None ->
  getLetterPath c k loc i = (None, ["Unknown style key: " ++ k]).
Proof.
  intros c k loc i Ha Hd Hs Hk. unfold getLetterPath. rewrite Hd, Hs, Ha, Hk. reflexivity.
Qed.

End Probes.

Lemma alpha_not_digit : forall c, is_alpha c = true -> is_digit c = false.
Proof.
  intros c. unfold is_alpha, is_upper, is_lower, is_digit. set (n := code c).
  destruct (Nat.leb_spec 65 n), (Nat.leb_spec n 90), (Nat.leb_spec 97 n),
           (Nat.leb_spec n 122), (Nat.leb_spec 48 n), (Nat.leb_spec n 57);
    simpl; intro Ha; try discriminate; try reflexivity; lia.
Qed.

Lemma alpha_not_symbol : forall c, is_alpha c = true -> is_symbol c = false.
Proof.
  intros c H. unfold is_symbol.
  destruct (existsb (Nat.eqb (code c)) symbol_codes) eqn:E; [|reflexivity].
  apply existsb_exists in E. destruct E as [n [Hin Hn]]. apply Nat.eqb_eq in Hn.
  unfold is_alpha, is_upper, is_lower in H. rewrite Hn in H.
  simpl in Hin. repeat (destruct Hin as [<-|Hin]; [discriminate H|]). destruct Hin.
Qed.

Lemma shortcut_fallback_alpha : forall c k,
  is_alpha c = true -> shortcut_style c k = fallback_style c k.
Proof. intros c k H. unfold fallback_style. rewrite H. reflexivity. Qed.

End VariantFacts.

Lemma gen_is_svg_url : forall c s r,
  String.eqb (generateFallbackLetterSVG c s r) "" = false /\
  startsWith (generateFallbackLetterSVG c s r) "data:image/svg+xml" = true.
Proof.
  intros c s r. unfold generateFallbackLetterSVG.
  generalize (encodeURIComponent (Utils.svg_markup c s (Utils.filterId c r))). intro e.
  split; reflexivity.
Qed.

(** The selector resolves a character whose only variant is a synthesized
    URL to its placeholder descriptor. *)
Lemma select_one_single_svg : forall db probe rnd pick remote png style loc i c,
  is_alnum c = true -> Ascii.eqb c " "%char = false ->
  (exists s, fst (FixedDB.getLetterVariants probe db c style loc false (rnd i))
             = [generateFallbackLetterSVG c s (rnd i)]) ->
  Selector.select_one db probe rnd pick remote png style loc i c = Selector.placeholder_desc png c style.
Proof.
  intros db probe rnd pick remote png style loc i c Ha Hsp [s Hs].
  unfold Selector.select_one. rewrite Hsp, Ha, Hs. cbn [negb List.length].
  destruct (pick i 1) as [|n]; cbn [nth_error]; [|destruct n; reflexivity].
  unfold Selector.loadImage. destruct (gen_is_svg_url c s (rnd i)) as [E1 E2].
  rewrite E1, E2. reflexivity.
Qed.

Lemma alpha_alnum : forall c, is_alpha c = true -> is_alnum c = true.
Proof. intros c H. unfold is_alnum. rewrite H. reflexivity. Qed.

Lemma alpha_not_space : forall c, is_alpha c = true -> Ascii.eqb c " "%char = false.
Proof.
  intros c H. destruct (Ascii.eqb c " "%char) eqn:E; [|reflexivity].
  apply Ascii.eqb_eq in E. subst. discriminate H.
Qed.

(** C3 (code_bug): with the startup check done and no assets detected, the
    early return of [getLetterVariants] (line 272) synthesizes the fallback
    of the digit ['1'] in ["sans-upper"], the style with a case suffix,
    where the fallback branch (lines 323-331) uses the base style
    ["sans"]; for a style key with a dash, such as ["sans-x"], the two
    styles give different URLs. *)
Theorem C3_early_return_digit_style :
  forall probe r,
    FixedDB.getLetterVariants probe (FixedDB.mkDB true false) "1" "sans" "NYC" false r
      = ([generateFallbackLetterSVG "1" "sans-upper" r], []) /\
    FixedDB.shortcut_style "1" "sans" = "sans-upper" /\
    FixedDB.fallback_style "1" "sans" = "sans" /\
    generateFallbackLetterSVG "1" (FixedDB.shortcut_style "1" "sans-x") 0
      <> generateFallbackLetterSVG "1" (FixedDB.fallback_style "1" "sans-x") 0.
Proof.
  intros probe r. split; [reflexivity|]. split; [reflexivity|]. split; [reflexivity|].
  intro H.
  assert (E : String.eqb (generateFallbackLetterSVG "1" (FixedDB.shortcut_style "1" "sans-x") 0)
                         (generateFallbackLetterSVG "1" (FixedDB.fallback_style "1" "sans-x") 0) = false)
    by (vm_compute; reflexivity).
  rewrite H, String.eqb_refl in E. discriminate E.
Qed.

(** C8 (corrected): a letter resolved with a style key for which
    [styleFolderMap[styleKey]] is [undefined] (neither one of its keys nor
    a member inherited from [Object.prototype] such as [constructor])
    still gets exactly one synthesized URL, in its
    case-suffixed style; the error ["Unknown style key: ..."] is logged
    (once per probed variant, by [getLetterPath]) only when the early
    no-assets return is not taken, and nothing is logged when it is. The
    selector turns that URL into the placeholder descriptor
    ([isFallback] true) for this character, without failing, and the
    descriptor of every position of the text depends only on that
    position's character and index. *)
Theorem C8_unknown_style_key :
  forall probe db c k loc r,
    is_alpha c = true -> FixedDB.styleFolderMap k = None ->
    fst (FixedDB.getLetterVariants probe db c k loc false r)
      = [generateFallbackLetterSVG c (FixedDB.fallback_style c k) r] /\
    snd (FixedDB.getLetterVariants probe db c k loc false r)
      = (if FixedDB.checked db && negb (FixedDB.assetsDetected db) then []
         else ["Unknown style key: " ++ k; "Unknown style key: " ++ k; "Unknown style key: " ++ k]) /\
    (forall rnd pick remote png i,
       Selector.select_one db probe rnd pick remote png k loc i c = Selector.placeholder_desc png c k) /\
    (forall rnd pick remote png text j,
       nth_error (Selector.select_from db probe rnd pick remote png (fun _ => k) loc (chars text) 0) j
       = option_map (Selector.select_one db probe rnd pick remote png k loc j) (nth_error (chars text) j)).
Proof.
  intros probe db c k loc r Ha Hk.
  assert (Hd := VariantFacts.alpha_not_digit c Ha).
  assert (Hs := VariantFacts.alpha_not_symbol c Ha).
  assert (Hpath := fun i => VariantFacts.getLetterPath_unknown c k loc i Ha Hd Hs Hk).
  assert (Hgv : forall r',
    FixedDB.getLetterVariants probe db c k loc false r'
    = ([generateFallbackLetterSVG c (FixedDB.fallback_style c k) r'],
       if FixedDB.checked db && negb (FixedDB.assetsDetected db) then []
       else ["Unknown style key: " ++ k; "Unknown style key: " ++ k; "Unknown style key: " ++ k])).
  { intro r'. unfold FixedDB.getLetterVariants. rewrite Hd, Hs. simpl.
    destruct (FixedDB.checked db && negb (FixedDB.assetsDetected db)) eqn:E; simpl.
    - rewrite VariantFacts.shortcut_fallback_alpha by exact Ha. reflexivity.
    - unfold FixedDB.probe_all, FixedDB.probe_variant. simpl. rewrite !Hpath. reflexivity. }
  split; [rewrite Hgv; reflexivity|]. split; [rewrite Hgv; reflexivity|]. split.
  - intros rnd pick remote png i. apply select_one_single_svg.
    + apply alpha_alnum, Ha.
    + apply alpha_not_space, Ha.
    + exists (FixedDB.fallback_style c k). rewrite Hgv. reflexivity.
  - intros rnd pick remote png text j.
    rewrite select_from_nth. reflexivity.
Qed.

(** Witness of C8: the letter ["A"] with the key ["foo"], assets checked
    for but not yet known to be missing. *)
Lemma C8_witness :
  is_alpha "A"%char = true /\ FixedDB.styleFolderMap "foo" = None /\
  snd (FixedDB.getLetterVariants (fun _ => false) (FixedDB.mkDB false false) "A" "foo" "NYC" false 0)
    = ["Unknown style key: foo"; "Unknown style key: foo"; "Unknown style key: foo"].
Proof.
  split; [reflexivity|]. split; [reflexivity|].
  apply (C8_unknown_style_key (fun _ => false) (FixedDB.mkDB false false) "A"%char "foo" "NYC" 0);
    reflexivity.
Defined.

(** C8 (counterexample): once the startup check found no assets, a
    letter with the unknown key ["foo"] logs nothing: the early return
    runs before [getLetterPath]. *)
Lemma C8_nothing_logged_after_check :
  snd (FixedDB.getLetterVariants (fun _ => false) (FixedDB.mkDB true false) "A" "foo" "NYC" false 0) = [].
Proof. reflexivity. Qed.

(** ** Path detection of the asset manager *)

Module DetectionFacts.

Import AssetManager.

Section Solo.

Variable exists_ : string -> bool.
Variable rand : nat -> nat.
Variable bases templates : list string.

Local Abbreviation solo := (run_solo false exists_ rand bases templates).

Lemma run_solo_done : forall fuel r st, solo fuel (IDone r) st = (IDone r, st).
Proof. intros [|f] r st; reflexivity. Qed.

Lemma run_solo_step : forall f pc st, (forall r, pc <> IDone r) ->
  solo (S f) pc st = let '(pc', st') := init_step false exists_ rand bases templates pc st in solo f pc' st'.
Proof. intros f pc st H. destruct pc; try reflexivity. exfalso; eapply H; reflexivity. Qed.

Lemma run_solo_finish : forall fuel st,
  probes (snd (solo fuel (fst (finish st)) (snd (finish st)))) = probes st.
Proof. intros fuel st. unfold finish. simpl. rewrite run_solo_done. reflexivity. Qed.

Lemma tmpls_probes : forall bs,
  (forall st fuel, assetsDetected st = false -> fuel >= m_bases templates bs ->
     probes (snd (solo fuel (IBases bs) st)) = (probes st ++ cross_until exists_ bs templates)%list) ->
  forall ts b st fuel, assetsDetected st = false ->
    fuel >= 2 * List.length ts + 1 + m_bases templates bs ->
    probes (snd (solo fuel (ITmpls b ts bs) st))
    = (probes st ++ (let '(l, f) := tmpl_until exists_ b ts in
                     if f then l else l ++ cross_until exists_ bs templates))%list.
Proof.
  intros bs IHbs ts; induction ts as [|t ts IH]; intros b st fuel Hd Hf.
  - destruct fuel as [|f]; [lia|]. simpl. rewrite Hd.
    apply IHbs; [exact Hd | simpl in Hf; lia].
  - destruct fuel as [|[|f]]; [simpl in Hf; lia | simpl in Hf; unfold m_bases in Hf; lia |].
    simpl.
    destruct (exists_ (testPath b t)) eqn:E.
    + unfold finish. cbn beta iota. rewrite run_solo_done. reflexivity.
    + rewrite IH; [| exact Hd | simpl in Hf; lia].
      simpl. destruct (tmpl_until exists_ b ts) as [l fl].
      rewrite <- app_assoc. destruct fl; reflexivity.
Qed.

Lemma bases_probes : forall bs st fuel,
  assetsDetected st = false -> fuel >= m_bases templates bs ->
  probes (snd (solo fuel (IBases bs) st)) = (probes st ++ cross_until exists_ bs templates)%list.
Proof.
  induction bs as [|b bs IH]; intros st fuel Hd Hf.
  - destruct fuel as [|f]; [unfold m_bases in Hf; lia|].
    simpl. rewrite run_solo_done. simpl. rewrite app_nil_r. reflexivity.
  - destruct fuel as [|f]; [unfold m_bases in Hf; lia|].
    simpl. fold solo.
    rewrite (tmpls_probes bs IH templates b st f Hd).
    + reflexivity.
    + unfold m_bases in *. simpl List.length in Hf.
      remember (2 * List.length templates + 2) as k. simpl in Hf. lia.
Qed.

(** From the constructor's state, one production detection run probes
    exactly [cross_until]. *)
Lemma detection_probes :
  probes (snd (solo (detect_bound bases templates) IStart fresh)) = cross_until exists_ bases templates.
Proof.
  unfold detect_bound. cbn [Nat.add]. rewrite run_solo_step by discriminate.
  cbn [init_step initialized fresh].
  rewrite bases_probes; [reflexivity | reflexivity |].
  unfold m_bases. lia.
Qed.

End Solo.

Section Sched.

Variable is_local : bool.
Variable exists_ : string -> bool.
Variable rand : nat -> nat.
Variable bases templates : list string.

Lemma set_nth_forall : forall (A : Type) (P : A -> Prop) i x l,
  Forall P l -> P x -> Forall P (Loader.set_nth i x l).
Proof.
  intros A P i x l; revert i; induction l as [|y r IH]; intros i Hl Hx; [destruct i; constructor|].
  inversion Hl; subst. destruct i; simpl; constructor; auto.
Qed.

(** Once [initialized] is set, callers that have not started their loop
    return at once and leave the state untouched. *)
Lemma run_sched_initialized : forall sched pcs st,
  initialized st = true -> Forall entry_or_done pcs ->
  snd (run_sched is_local exists_ rand bases templates sched pcs st) = st /\
  Forall entry_or_done (fst (run_sched is_local exists_ rand bases templates sched pcs st)).
Proof.
  induction sched as [|i r IH]; intros pcs st Hi Hp; simpl; [auto|].
  unfold sched_step.
  destruct (nth_error pcs i) as [pc|] eqn:E; [|apply IH; assumption].
  assert (Hpc : entry_or_done pc)
    by (eapply Forall_forall; [exact Hp | eapply nth_error_In; exact E]).
  destruct Hpc as [->|[res ->]]; simpl; [rewrite Hi|]; apply IH; auto;
    apply set_nth_forall; auto; right; eexists; reflexivity.
Qed.

End Sched.

End DetectionFacts.

(** ** Calls after detection issue no probes *)

Module QuietFacts.

Import Loader AssetManager LetterLoading LetterGenerator TypographyManager.

Lemma getFallbackLetter_quiet : forall rand ch s ps st,
  quiet ps st -> quiet ps (snd (getFallbackLetter rand ch s st)).
Proof. intros. unfold getFallbackLetter. destruct (lookup _ _); simpl; auto. Qed.

Lemma loadLetterImage_quiet : forall rand city style letter variant ps st,
  quiet ps st -> quiet ps (snd (loadLetterImage rand city style letter variant st)).
Proof.
  intros rand city style letter variant ps st H. unfold loadLetterImage.
  destruct (workingPathPattern st); [exact H|].
  pose proof (getFallbackLetter_quiet rand letter style ps st H) as H1.
  destruct (getFallbackLetter rand letter style st) as [f st1]. exact H1.
Qed.

Ltac quiet_split :=
  repeat match goal with
  | |- context [getFallbackLetter ?r ?c ?s ?st] =>
      let H := fresh "Hq" in
      assert (H : quiet (probes st) (snd (getFallbackLetter r c s st)))
        by (apply getFallbackLetter_quiet; split; simpl; auto);
      destruct (getFallbackLetter r c s st); simpl in H
  | |- context [loadLetterImage ?r ?a ?b ?c ?d ?st] =>
      let H := fresh "Hq" in
      assert (H : quiet (probes st) (snd (loadLetterImage r a b c d st)))
        by (apply loadLetterImage_quiet; split; simpl; auto);
      destruct (loadLetterImage r a b c d st); simpl in H
  | |- context [match ?x with _ => _ end] => destruct x
  end.

Lemma body_quiet : forall rand city style letter variant ps st,
  quiet ps st ->
  quiet ps (snd (body rand city style letter variant st)) /\
  not_init (fst (body rand city style letter variant st)).
Proof.
  intros rand city style letter variant ps st [Hi Hp]. unfold body. cbv zeta.
  quiet_split; simpl in *; unfold quiet in *; simpl in *; subst;
    repeat split; try tauto; try (destruct Hq; auto; congruence).
Qed.

Lemma ll_step_quiet : forall is_local exists_ rand bases templates pc ps st,
  quiet ps st -> not_init pc ->
  quiet ps (snd (ll_step is_local exists_ rand bases templates pc st)) /\
  not_init (fst (ll_step is_local exists_ rand bases templates pc st)).
Proof.
  intros is_local exists_ rand bases templates pc ps st H Hpc.
  destruct pc as [city style letter variant|ipc city style letter variant|key letter style p|p|s];
    simpl in Hpc |- *.
  - destruct H as [Hi Hp]. rewrite Hi. apply body_quiet. split; assumption.
  - contradiction.
  - destruct (lookup_p p (lpromises st)) as [[|v|msg]|]; cbn [fst snd not_init];
      try (split; [exact H | exact I]).
    destruct H as [Hi Hp]. quiet_split; unfold quiet in *; simpl in *; subst; tauto.
  - destruct (lookup_p p (lpromises st)) as [[|v|msg]|]; cbn [fst snd not_init];
      split; auto.
  - split; [exact H | exact I].
Qed.

Lemma ll_solo_quiet : forall is_local exists_ rand n pc ps st,
  quiet ps st -> not_init pc ->
  quiet ps (snd (ll_solo is_local exists_ rand n pc st)).
Proof.
  intros is_local exists_ rand n; induction n as [|n IH]; intros pc ps st H Hpc;
    simpl; [exact H|].
  destruct (ll_step_quiet is_local exists_ rand possibleBasePaths pathTemplates pc ps st H Hpc)
    as [H1 H2].
  destruct pc; [| | | | exact H];
    destruct (ll_step is_local exists_ rand possibleBasePaths pathTemplates _ st) as [pc' st'];
    simpl in H1, H2; destruct pc'; try (apply IH; assumption); exact H1.
Qed.

Lemma tm_loadLetter_quiet : forall is_local exists_ rand eventual city style letter ps st,
  quiet ps (tm_am st) ->
  quiet ps (tm_am (snd (tm_loadLetter is_local exists_ rand eventual city style letter st))).
Proof.
  intros is_local exists_ rand eventual city style letter ps st H. unfold tm_loadLetter.
  pose proof (ll_solo_quiet is_local exists_ rand fuel
                (LStart city style letter "01") ps (tm_am st) H I) as H1.
  destruct (ll_solo is_local exists_ rand fuel (LStart city style letter "01") (tm_am st))
    as [pc am1].
  simpl in H1.
  destruct pc as [| | ? ? ? p | p | s];
    [ | | destruct (eventual p) | destruct (eventual p) | destruct s ];
    try (destruct (generateLetter _ _ _ _ _ _)); exact H1.
Qed.

Lemma fold_left_inv : forall (A B : Type) (P : A -> Prop) (f : A -> B -> A) l a,
  (forall a b, P a -> P (f a b)) -> P a -> P (fold_left f l a).
Proof.
  intros A B P f l; induction l as [|b l IH]; intros a Hf Ha; simpl; auto.
Qed.

Lemma run_solo_initialized : forall is_local exists_ rand bases templates f st,
  initialized st = true ->
  run_solo is_local exists_ rand bases templates (S f) IStart st = (IDone (AssetManager.assetsDetected st), st).
Proof. intros is_local exists_ rand bases templates f st H. simpl. rewrite H. destruct f; reflexivity. Qed.

Lemma prewarm_quiet : forall is_local exists_ rand eventual ps st,
  quiet ps (tm_am st) -> quiet ps (tm_am (prewarm is_local exists_ rand eventual st)).
Proof.
  intros is_local exists_ rand eventual ps st H. unfold prewarm.
  apply (fold_left_inv _ _ (fun s => quiet ps (tm_am s))); [|exact H].
  intros a b Ha. exact (tm_loadLetter_quiet is_local exists_ rand eventual "NYC" (snd b) (fst b) ps a Ha).
Qed.

Lemma run_solo_fuel_initialized : forall is_local exists_ rand st,
  initialized st = true ->
  run_solo is_local exists_ rand possibleBasePaths pathTemplates fuel IStart st
  = (IDone (AssetManager.assetsDetected st), st).
Proof.
  intros is_local exists_ rand st Hi.
  exact (run_solo_initialized is_local exists_ rand possibleBasePaths pathTemplates 399 st Hi).
Qed.

Lemma tm_initialize_eq : forall is_local exists_ rand eventual st,
  tm_initialized st = false -> initialized (tm_am st) = true ->
  tm_initialize is_local exists_ rand eventual st
  = mkTM true (tm_am (prewarm is_local exists_ rand eventual (mkTM false (tm_am st) (tm_lg st))))
              (tm_lg (prewarm is_local exists_ rand eventual (mkTM false (tm_am st) (tm_lg st)))).
Proof.
  intros is_local exists_ rand eventual st Hf Hi. unfold tm_initialize.
  rewrite Hf, (run_solo_fuel_initialized is_local exists_ rand (tm_am st) Hi). reflexivity.
Qed.

Lemma quiet_mk : forall ps b am lg, quiet ps am -> quiet ps (tm_am (mkTM b am lg)).
Proof. intros ps b am lg H. exact H. Qed.

Lemma tm_initialize_quiet : forall is_local exists_ rand eventual ps st,
  quiet ps (tm_am st) -> quiet ps (tm_am (tm_initialize is_local exists_ rand eventual st)).
Proof.
  intros is_local exists_ rand eventual ps st H.
  destruct (tm_initialized st) eqn:Hf.
  - unfold tm_initialize. rewrite Hf. exact H.
  - rewrite (tm_initialize_eq is_local exists_ rand eventual st Hf (proj1 H)).
    apply quiet_mk, prewarm_quiet, quiet_mk, H.
Qed.

Lemma collect_inv : forall (St : Type) (P : St -> Prop) load style city cs i st,
  (forall city style c s, P s -> P (snd (load city style c s))) -> P st ->
  P (snd (Typography.collect St load style city cs i st)).
Proof.
  intros St P load style city cs; induction cs as [|c r IH]; intros i st Hl H; simpl; [exact H|].
  destruct (Ascii.eqb c " "%char).
  - pose proof (IH (S i) st Hl H) as H1.
    destruct (Typography.collect St load style city r (S i) st). exact H1.
  - destruct (negb (is_alnum c)).
    + pose proof (IH (S i) st Hl H) as H1.
      destruct (Typography.collect St load style city r (S i) st). exact H1.
    + pose proof (Hl city (style ++ "-" ++ (if Ascii.eqb c (up_char c) then "upper" else "lower"))
                    c st H) as H0.
      destruct (load _ _ c st) as [out st1]. simpl in H0.
      pose proof (IH (S i) st1 Hl H0) as H1.
      destruct (Typography.collect St load style city r (S i) st1). exact H1.
Qed.

Lemma getLettersFromText_quiet : forall is_local exists_ rand eventual cfg o t ps st,
  quiet ps (tm_am st) ->
  quiet ps (tm_am (snd (TypographyManager.getLettersFromText is_local exists_ rand eventual cfg o t st))).
Proof.
  intros is_local exists_ rand eventual cfg o t ps st H.
  unfold TypographyManager.getLettersFromText, Typography.getLettersFromText.
  match goal with |- context [Typography.collect ?S ?l ?a ?b ?c ?d ?s0] =>
    pose proof (collect_inv S (fun s => quiet ps (tm_am s)) l a b c d s0) as H1;
    destruct (Typography.collect S l a b c d s0) end.
  apply H1.
  - intros. apply tm_loadLetter_quiet. assumption.
  - apply tm_initialize_quiet, H.
Qed.

End QuietFacts.

(** ** Detection, selection and generation scenarios *)

(** C4 (code_bug): two [assetManager.loadLetter] calls for the same key
    after detection share one fetch, but when that image fails the caller
    that started the load catches the rejection and returns the fallback
    letter, while the caller that joined the in-flight promise (line 202)
    receives the rejection itself: the two results differ. *)
Theorem C4_joined_caller_rejected :
  AssetManager.lfetches (snd C4_run) = [("NYC/alphabet/A/sans-upper/01.jpg", 0)] /\
  match nth_error (fst C4_run) 0 with
  | Some (LetterLoading.LDone (Loader.Fulfilled (Some f))) => o_isFallback f = Some true
  | _ => False
  end /\
  nth_error (fst C4_run) 1
    = Some (LetterLoading.LDone (Loader.Rejected "Failed to load image: NYC/alphabet/A/sans-upper/01.jpg")).
Proof. split; [|split]; vm_compute; reflexivity. Qed.

(** C5 (counterexample): two callers of [assetManager.initialize] that
    interleave at their first [await] each run their own detection: the
    first candidate path is probed twice. *)
Lemma C5_two_detections :
  AssetManager.probes (snd C5_run)
  = ["NYC/alphabet/A/sans-upper/01.jpg"; "NYC/alphabet/A/sans-upper/01.jpg"].
Proof. vm_compute. reflexivity. Qed.

(** C6 (counterexample): with two bases, two templates and the match at
    base 1 / template 1, detection probes four paths, not three. *)
Lemma C6_four_probes :
  AssetManager.probes (snd (AssetManager.run_solo false C6_exists (fun n => n) C6_bases C6_templates
                              (detect_bound C6_bases C6_templates) AssetManager.IStart AssetManager.fresh))
  = ["NYC/alphabet/A/sans-upper/01.jpg"; "cities/NYC/alphabet/A/sans-upper/01.jpg";
     "assets/NYC/alphabet/A/sans-upper/01.jpg"; "assets/cities/NYC/alphabet/A/sans-upper/01.jpg"].
Proof. vm_compute. reflexivity. Qed.

(** C7 (counterexample): in [getLettersFromText], the descriptor of ['!']
    has no [isFallback] field. *)
Lemma C7_bang_not_fallback :
  map d_isFallback (fst (TypographyManager.getLettersFromText false (fun _ => false) (fun n => n)
     (fun _ => Loader.Pending) C1_cfg C7_opts (JStr "A1!") TypographyManager.tm_fresh))
  = [Some true; Some true; None].
Proof. vm_compute. reflexivity. Qed.


Lemma entry_b_forall : forall pcs, forallb entry_b pcs = true -> Forall entry_or_done pcs.
Proof.
  induction pcs as [|pc r IH]; simpl; intro H; [constructor|].
  apply andb_prop in H as [H1 H2].
  constructor; [|apply IH, H2].
  destruct pc; try discriminate H1; [left; reflexivity | right; eexists; reflexivity].
Qed.

Lemma tmpl_until_none : forall b ts,
  tmpl_until (fun _ => false) b ts = (map (AssetManager.testPath b) ts, false).
Proof. intros b ts; induction ts as [|t r IH]; simpl; [reflexivity|]. rewrite IH. reflexivity. Qed.

Lemma cross_until_none : forall bs ts,
  cross_until (fun _ => false) bs ts = flat_map (fun b => map (AssetManager.testPath b) ts) bs.
Proof. intros bs ts; induction bs as [|b r IH]; simpl; [reflexivity|]. rewrite tmpl_until_none, IH. reflexivity. Qed.

Lemma getLetterVariants_no_probe_svg : forall db c k loc r,
  exists s, fst (FixedDB.getLetterVariants (fun _ => false) db c k loc false r)
            = [generateFallbackLetterSVG c s r].
Proof.
  intros db c k loc r.
  destruct (FixedDB.checked db && negb (FixedDB.assetsDetected db)) eqn:E.
  - exists (FixedDB.shortcut_style c k). unfold FixedDB.getLetterVariants. rewrite E. reflexivity.
  - exists (FixedDB.fallback_style c k). apply VariantFacts.getLetterVariants_nothing_found; [exact E|].
    intro p. unfold FixedDB.pathExists. rewrite E. reflexivity.
Qed.

(** C5 (corrected): once [initialized] is set, callers of [initialize]
    that have not started or have returned leave the state untouched (no
    probe), and any sequence of [getLettersFromText] calls keeps
    [initialized] and issues no probe. *)
Theorem C5_no_probes_after_detection :
  (forall is_local exists_ rand bases templates sched pcs st,
     AssetManager.initialized st = true -> forallb entry_b pcs = true ->
     snd (AssetManager.run_sched is_local exists_ rand bases templates sched pcs st) = st) /\
  (forall is_local exists_ rand eventual (calls : list (defaults * options * jsval)) st,
     AssetManager.initialized (TypographyManager.tm_am st) = true ->
     let st' := fold_left (fun s c => snd (TypographyManager.getLettersFromText is_local exists_ rand eventual
                                             (fst (fst c)) (snd (fst c)) (snd c) s)) calls st in
     AssetManager.initialized (TypographyManager.tm_am st') = true /\
     AssetManager.probes (TypographyManager.tm_am st') = AssetManager.probes (TypographyManager.tm_am st)).
Proof.
  split.
  - intros is_local exists_ rand bases templates sched pcs st Hi Hp.
    exact (proj1 (DetectionFacts.run_sched_initialized is_local exists_ rand bases templates sched pcs st
                    Hi (entry_b_forall pcs Hp))).
  - intros is_local exists_ rand eventual calls st Hi st'.
    apply (QuietFacts.fold_left_inv _ _ (fun s => quiet (AssetManager.probes (TypographyManager.tm_am st))
                                                     (TypographyManager.tm_am s))).
    + intros a c Ha. apply QuietFacts.getLettersFromText_quiet, Ha.
    + split; [exact Hi | reflexivity].
Qed.

(** Witness of C5: two fresh callers of [initialize] and two
    [getLettersFromText] calls after a finished detection. *)
Lemma C5_witness :
  snd (AssetManager.run_sched false (fun _ => false) (fun n => n) AssetManager.possibleBasePaths
         AssetManager.pathTemplates [0; 1] [AssetManager.IStart; AssetManager.IStart] C5_detected)
    = C5_detected /\
  AssetManager.probes (TypographyManager.tm_am
    (fold_left (fun s c => snd (TypographyManager.getLettersFromText false (fun _ => false) (fun n => n)
                                  (fun _ => Loader.Pending) (fst (fst c)) (snd (fst c)) (snd c) s))
       [(C1_cfg, C7_opts, JStr "A1!"); (C1_cfg, C7_opts, JOther)] C5_tm))
    = AssetManager.probes (TypographyManager.tm_am C5_tm).
Proof.
  destruct C5_no_probes_after_detection as [H1 H2]. split.
  - refine (H1 false (fun _ => false) (fun n => n) AssetManager.possibleBasePaths
              AssetManager.pathTemplates [0; 1] [AssetManager.IStart; AssetManager.IStart] C5_detected _ _);
      vm_compute; reflexivity.
  - refine (proj2 (H2 false (fun _ => false) (fun n => n) (fun _ => Loader.Pending)
                     [(C1_cfg, C7_opts, JStr "A1!"); (C1_cfg, C7_opts, JOther)] C5_tm _)).
    vm_compute. reflexivity.
Defined.

(** C6 (corrected): from the constructor's state, production detection
    probes exactly [cross_until]: bases outer, templates inner, the
    canonical instantiation, up to and including the first success; with
    no success it probes the whole cross product; in the two-by-two
    scenario with the match at (1, 1) it probes four paths. *)
Theorem C6_detection_probe_sequence :
  (forall exists_ rand bases templates,
     AssetManager.probes (snd (AssetManager.run_solo false exists_ rand bases templates
                                 (detect_bound bases templates) AssetManager.IStart AssetManager.fresh))
     = cross_until exists_ bases templates) /\
  (forall bases templates,
     cross_until (fun _ => false) bases templates
     = flat_map (fun b => map (AssetManager.testPath b) templates) bases) /\
  List.length (cross_until C6_exists C6_bases C6_templates) = 4.
Proof.
  split; [intros; apply DetectionFacts.detection_probes|].
  split; [apply cross_until_none|]. vm_compute. reflexivity.
Qed.

(** C7 (corrected): for ["A1!"] in ["sans"] at ["NYC"] with no asset
    reachable, [getLettersFromText] yields ['A'] and ['1'] as fallback
    letters with full style ["sans-upper"] and ['!'] as a special
    descriptor with no style and no [isFallback]; the selector yields ['A']
    and ['1'] as placeholders in style ["sans"] and ['!'] as a special
    descriptor. *)
Theorem C7_A1bang_descriptors :
  (forall is_local rand eventual cfg,
     map (fun d => (d_type d, d_value d, d_style d, d_fullStyle d, d_isFallback d))
       (fst (TypographyManager.getLettersFromText is_local (fun _ => false) rand eventual cfg
               C7_opts (JStr "A1!") TypographyManager.tm_fresh))
     = [("letter", "A"%char, Some "sans", Some "sans-upper", Some true);
        ("letter", "1"%char, Some "sans", Some "sans-upper", Some true);
        ("special", "!"%char, None, None, None)]) /\
  (forall db rnd pick remote png,
     map (fun d => (d_type d, d_value d, d_style d, d_isFallback d))
       (Selector.selectLettersForText db (fun _ => false) rnd pick remote png "A1!" "sans" "NYC")
     = [("letter", "A"%char, Some "sans", Some true);
        ("letter", "1"%char, Some "sans", Some true);
        ("special", "!"%char, None, None)]).
Proof.
  split.
  - intros [|] rand eventual cfg; vm_compute; reflexivity.
  - intros db rnd pick remote png. unfold Selector.selectLettersForText.
    cbn -[Selector.select_one].
    rewrite (select_one_single_svg db (fun _ => false) rnd pick remote png "sans" "NYC" 0 "A"%char),
            (select_one_single_svg db (fun _ => false) rnd pick remote png "sans" "NYC" 1 "1"%char);
      try reflexivity; apply getLetterVariants_no_probe_svg.
Qed.


(** [loadImage] of both database classes: a second call for a path that is
    loading returns the first call's promise and starts no fetch.  This
    covers the SVG data URLs in the second class, which loads them like
    any path (the FIXED class returns them at once), and every path that
    does not name an [Object.prototype] member. *)
Theorem loadImage_coalesces : forall v path st,
  String.eqb path "" = false -> proto_member path = None ->
  (v = Loader.FixedVersion -> startsWith path "data:image/svg+xml" = false) ->
  lookup path (Loader.letterCache st) = None -> lookup path (Loader.loadingPromises st) = None ->
  snd (Loader.call v path st) = Loader.Await (Loader.next_promise st) /\
  snd (Loader.call v path (fst (Loader.call v path st))) = snd (Loader.call v path st) /\
  Loader.fetches (fst (Loader.call v path (fst (Loader.call v path st))))
    = (Loader.fetches st ++ [Loader.mkFetch path (Loader.next_promise st) true false])%list.
Proof.
  intros v path st H1 _ H2 H3 H4.
  assert (E : Loader.call v path st = Loader.start_load path st)
    by (destruct v; unfold Loader.call; rewrite H1; [rewrite (H2 eq_refl)|]; rewrite H3, H4; reflexivity).
  assert (Hc : lookup path (Loader.letterCache (fst (Loader.start_load path st))) = None) by exact H3.
  assert (Hl : lookup path (Loader.loadingPromises (fst (Loader.start_load path st)))
               = Some (Loader.next_promise st)) by apply LoaderFacts.lookup_set_key.
  rewrite E. destruct v; unfold Loader.call; rewrite H1; [rewrite (H2 eq_refl)|]; rewrite Hc, Hl;
    (split; [reflexivity | split; reflexivity]).
Qed.

(** Witness: two calls of the second class for an SVG data URL from the
    initial state. *)
Lemma loadImage_coalesces_witness :
  Loader.fetches (fst (Loader.call Loader.SecondVersion "data:image/svg+xml,x"
                        (fst (Loader.call Loader.SecondVersion "data:image/svg+xml,x" Loader.init))))
  = [Loader.mkFetch "data:image/svg+xml,x" 0 true false].
Proof.
  apply (loadImage_coalesces Loader.SecondVersion "data:image/svg+xml,x" Loader.init);
    first [reflexivity | intro H; discriminate H].
Defined.

(** Outside the early no-assets return, [getLetterVariants] with no
    reachable asset returns one synthesized URL, in the case-suffixed style
    for a letter and the base style otherwise. *)
Theorem getLetterVariants_single_fallback : forall db c k loc r,
  FixedDB.checked db && negb (FixedDB.assetsDetected db) = false ->
  fst (FixedDB.getLetterVariants (fun _ => false) db c k loc false r)
  = [generateFallbackLetterSVG c (FixedDB.fallback_style c k) r].
Proof.
  intros db c k loc r H. apply VariantFacts.getLetterVariants_nothing_found; [exact H|].
  intro p. unfold FixedDB.pathExists. rewrite H. reflexivity.
Qed.

(** Witness: the digit ['1'] in ["sans"]. *)
Lemma getLetterVariants_single_fallback_witness :
  fst (FixedDB.getLetterVariants (fun _ => false) (FixedDB.mkDB false false) "1" "sans" "NYC" false 0)
  = [generateFallbackLetterSVG "1" "sans" 0].
Proof. apply (getLetterVariants_single_fallback (FixedDB.mkDB false false) "1"%char "sans" "NYC" 0). reflexivity. Defined.

(* ================================================================== *)
(** * Further properties of the code *)

(** ** [database.js], second class: paths, variants and fallback URLs *)

Module SecondDBFacts.

Lemma second_path_nonempty c k loc i p :
  SecondDB.getLetterPath c k loc i = Some p -> String.eqb p "" = false.
Proof.
  unfold SecondDB.getLetterPath.
  destruct (String.eqb c ""), (String.eqb k ""), (String.eqb loc ""), (negb (SecondDB.single_alnum c));
    try discriminate.
  destruct (SecondDB.styleFolderMap k); [|discriminate].
  intro H; injection H as <-; reflexivity.
Qed.

Lemma second_fold probe c k loc l f r :
  fold_left (fun (acc : list string * list string) (i : nat) =>
                 let '(found, requested) := acc in
                 match SecondDB.getLetterPath c k loc i with
                 | None => (found, requested)
                 | Some path =>
                     let '(exists_, req) := SecondDB.pathExists probe path in
                     (if exists_ then (found ++ [path])%list else found, (requested ++ req)%list)
                 end) l (f, r)
  = ((f ++ filter probe (flat_map (fun i => match SecondDB.getLetterPath c k loc i with
                                             | Some p => [p] | None => [] end) l))%list,
     (r ++ flat_map (fun i => match SecondDB.getLetterPath c k loc i with
                              | Some p => [p] | None => [] end) l)%list).
Proof.
  revert f r; induction l as [|i l IH]; intros f r; simpl.
  - rewrite !app_nil_r; reflexivity.
  - destruct (SecondDB.getLetterPath c k loc i) as [p|] eqn:E.
    + unfold SecondDB.pathExists. rewrite (second_path_nonempty _ _ _ _ _ E).
      rewrite IH. simpl. destruct (probe p); simpl; rewrite <- !app_assoc; reflexivity.
    + simpl. apply IH.
Qed.

Lemma second_path_rejected c k loc i :
  SecondDB.single_alnum c = false \/ SecondDB.styleFolderMap k = None \/ loc = "" ->
  SecondDB.getLetterPath c k loc i = None.
Proof.
  intros H. unfold SecondDB.getLetterPath.
  destruct (String.eqb c ""), (String.eqb k ""); try reflexivity.
  destruct H as [H|[H|H]].
  - rewrite H. destruct (String.eqb loc ""); reflexivity.
  - rewrite H. destruct (String.eqb loc ""), (negb (SecondDB.single_alnum c)); reflexivity.
  - subst loc. reflexivity.
Qed.

Lemma hexdig_alnum n : n < 16 -> is_alnum (hexdig n) = true.
Proof.
  intros H. do 16 (destruct n as [|n]; [reflexivity|]). lia.
Qed.

Lemma code_lt c : code c < 256.
Proof. unfold code. apply nat_ascii_bounded. Qed.

Lemma chars_cons (c : ascii) (s : string) : chars (String c s) = c :: chars s.
Proof. reflexivity. Qed.

Lemma encode_safe s : forallb url_char (chars (encodeURIComponent s)) = true.
Proof.
  induction s as [|c s IH]; [reflexivity|].
  cbn [encodeURIComponent]. destruct (uri_unreserved c) eqn:U.
  - rewrite chars_cons. cbn [forallb]. unfold url_char at 1. rewrite U. exact IH.
  - rewrite !chars_cons. cbn [forallb]. rewrite IH.
    assert (A1 : is_alnum (hexdig (code c / 16)) = true).
    { apply hexdig_alnum. pose proof (code_lt c). apply Nat.Div0.div_lt_upper_bound. lia. }
    assert (A2 : is_alnum (hexdig (code c mod 16)) = true).
    { apply hexdig_alnum. apply Nat.mod_upper_bound. lia. }
    unfold url_char, uri_unreserved. rewrite A1, A2. reflexivity.
Qed.

Lemma prefix_safe s :
  forallb url_char (chars ("data:image/svg+xml;charset=utf-8," ++ s)) =
  forallb url_char (chars s).
Proof. reflexivity. Qed.

End SecondDBFacts.

(** [getLetterVariants] of the second class requests the paths of
    [variant_paths] in order and returns those that exist; when none
    exists it returns the single [getFallbackPath] URL instead. *)
Theorem second_getLetterVariants_result probe c k loc :
  SecondDB.getLetterVariants probe c k loc =
  (match filter probe (variant_paths c k loc) with
   | [] => [SecondDB.getFallbackPath c k]
   | found => found
   end, variant_paths c k loc).
Proof.
  unfold SecondDB.getLetterVariants. rewrite SecondDBFacts.second_fold. unfold variant_paths. simpl.
  destruct (filter probe _); reflexivity.
Qed.

(** [getLetterVariants] of the second class requests nothing and returns
    one fallback URL when the character is not a single letter or digit
    (the URL shows ['?']), when [styleFolderMap] gives [undefined] for the
    style key (neither own nor inherited; the URL uses the [sans] family),
    or when the location is empty. *)
Theorem second_getLetterVariants_rejected probe c k loc :
  (SecondDB.single_alnum c = false ->
     SecondDB.getLetterVariants probe c k loc = ([SecondDB.getFallbackPath "?" k], [])) /\
  (SecondDB.styleFolderMap k = None ->
     SecondDB.getLetterVariants probe c k loc = ([SecondDB.getFallbackPath c "sans"], [])) /\
  (loc = "" ->
     SecondDB.getLetterVariants probe c k loc = ([SecondDB.getFallbackPath c k], [])).
Proof.
  assert (G : SecondDB.single_alnum c = false \/ SecondDB.styleFolderMap k = None \/ loc = "" ->
              SecondDB.getLetterVariants probe c k loc = ([SecondDB.getFallbackPath c k], [])).
  { intros H. unfold SecondDB.getLetterVariants. simpl.
    rewrite !(SecondDBFacts.second_path_rejected c k loc _ H). reflexivity. }
  split; [|split].
  - intros H. rewrite G by auto. unfold SecondDB.getFallbackPath. rewrite H. reflexivity.
  - intros H. rewrite G by auto. unfold SecondDB.getFallbackPath. rewrite H. reflexivity.
  - intros H. apply G; auto.
Qed.

(** Both synthesized fallback URLs, of [generateFallbackLetterSVG] and of
    the second class's [getFallbackPath], consist only of characters that
    need no escaping in a [data:] URL, whatever the character and style. *)
Theorem fallback_urls_safe ch style r c k :
  forallb url_char (chars (generateFallbackLetterSVG ch style r)) = true /\
  forallb url_char (chars (SecondDB.getFallbackPath c k)) = true.
Proof.
  split.
  - unfold generateFallbackLetterSVG. rewrite SecondDBFacts.prefix_safe. apply SecondDBFacts.encode_safe.
  - unfold SecondDB.getFallbackPath. rewrite SecondDBFacts.prefix_safe. apply SecondDBFacts.encode_safe.
Qed.

(** ** [utils.js]: the case suffix of a style *)

Module StyleFacts.

Lemma prefix_refl t : String.prefix t t = true.
Proof.
  induction t as [|c t IH]; simpl; [reflexivity|].
  destruct (ascii_dec c c); [exact IH|contradiction].
Qed.

Lemma index_app s t : String.index 0 t (s ++ t) <> None.
Proof.
  induction s as [|c s IH].
  - simpl. destruct t as [|c t]; simpl; [discriminate|].
    destruct (ascii_dec c c); [|contradiction]. rewrite prefix_refl. discriminate.
  - change (String c s ++ t) with (String c (s ++ t)).
    change (String.index 0 t (String c (s ++ t))) with
      (if String.prefix t (String c (s ++ t)) then Some 0
       else match String.index 0 t (s ++ t) with Some n => Some (S n) | None => None end).
    destruct (String.prefix t (String c (s ++ t))); [discriminate|].
    destruct (String.index 0 t (s ++ t)); [discriminate|contradiction].
Qed.

Lemma includes_app s t : includes (s ++ t) t = true.
Proof.
  unfold includes. destruct (String.index 0 t (s ++ t)) eqn:E; [reflexivity|].
  exfalso. exact (index_app s t E).
Qed.

Lemma before_dash_no_dash k : no_dash k = true -> before_dash k = k.
Proof.
  induction k as [|c k IH]; simpl; [reflexivity|].
  unfold no_dash; simpl. destruct (Ascii.eqb c "-"%char); simpl; [discriminate|].
  intro H. f_equal. apply IH. exact H.
Qed.

Lemma before_dash_suffix k t : no_dash k = true -> before_dash (k ++ String "-"%char t) = k.
Proof.
  induction k as [|c k IH]; simpl; [reflexivity|].
  unfold no_dash; simpl. destruct (Ascii.eqb c "-"%char); simpl; [discriminate|].
  intro H. f_equal. apply IH. exact H.
Qed.

Lemma base_style_no_dash k : no_dash k = true -> base_style k = k.
Proof.
  intros H. unfold base_style. rewrite (before_dash_no_dash k H).
  destruct (_ && _); reflexivity.
Qed.

Lemma base_style_suffix k t :
  no_dash k = true -> (t = "upper" \/ t = "lower") -> base_style (k ++ "-" ++ t) = k.
Proof.
  intros H Ht. unfold base_style.
  assert (E : String.eqb (k ++ "-" ++ t) "" = false).
  { destruct k; reflexivity. }
  rewrite E. simpl negb.
  assert (I : includes (k ++ "-" ++ t) "-upper" || includes (k ++ "-" ++ t) "-lower" = true).
  { destruct Ht as [->| ->].
    - change ("-" ++ "upper") with "-upper". rewrite (includes_app k "-upper"). reflexivity.
    - change ("-" ++ "lower") with "-lower". rewrite (includes_app k "-lower"). apply orb_true_r. }
  rewrite I. apply before_dash_suffix. exact H.
Qed.

End StyleFacts.

(** [generateFallbackLetterSVG] draws the same glyph for a style key with
    the suffix ["-upper"] or ["-lower"] as for the key alone (a key with no
    dash): the case suffix changes neither font nor colours. *)
Theorem glyph_case_suffix_ignored ch k r :
  no_dash k = true ->
  generateFallbackLetterSVG ch (k ++ "-upper") r = generateFallbackLetterSVG ch k r /\
  generateFallbackLetterSVG ch (k ++ "-lower") r = generateFallbackLetterSVG ch k r.
Proof.
  intros H.
  assert (G : forall t, (t = "upper" \/ t = "lower") ->
              generateFallbackLetterSVG ch (k ++ "-" ++ t) r = generateFallbackLetterSVG ch k r).
  { intros t Ht. unfold generateFallbackLetterSVG, svg_markup, getSystemFontFallbacks, palette.
    rewrite (StyleFacts.base_style_suffix k t H Ht), (StyleFacts.base_style_no_dash k H). reflexivity. }
  split; [apply (G "upper") | apply (G "lower")]; auto.
Qed.

(** Witness: the glyph of ['Q'] in ["serif-upper"] and in ["serif"]. *)
Lemma glyph_case_suffix_ignored_witness :
  no_dash "serif" = true /\
  generateFallbackLetterSVG "Q" ("serif" ++ "-upper") 3 = generateFallbackLetterSVG "Q" "serif" 3.
Proof.
  split; [reflexivity|].
  exact (proj1 (glyph_case_suffix_ignored "Q"%char "serif" 3 eq_refl)).
Defined.

(** ** [utils.js]: [debounce] *)

Module DebounceFacts.

Import Debounce.

Lemma last_cons_default {A} (r : list A) (a b : A) : last (b :: r) a = last r b.
Proof.
  revert a b; induction r as [|c r IH]; intros a b; [reflexivity|].
  change (last (b :: c :: r) a) with (last (c :: r) a). rewrite (IH a c). symmetry. apply IH.
Qed.

Lemma calls_no_invoke {A} imm (a : A) rest st :
  (imm = false \/ exists x, pending st = Some x) ->
  drun imm (map DCall (a :: rest)) st = mkDS (Some (last rest a)) (invoked st).
Proof.
  revert a st; induction rest as [|b rest IH]; intros a st H.
  - unfold drun; simpl. destruct H as [->|[x ->]]; simpl.
    + reflexivity.
    + rewrite andb_false_r. reflexivity.
  - unfold drun. cbn [map fold_left].
    assert (S1 : dstep imm st (DCall a) = mkDS (Some a) (invoked st)).
    { unfold dstep. destruct H as [->|[x ->]]; [reflexivity|]. rewrite andb_false_r. reflexivity. }
    rewrite S1.
    pose proof (IH b (mkDS (Some a) (invoked st)) (or_intror (ex_intro _ a eq_refl))) as IH'.
    unfold drun in IH'. cbn [map fold_left] in IH'. rewrite IH'. cbn [invoked].
    rewrite last_cons_default. reflexivity.
Qed.

End DebounceFacts.

(** A burst of calls of a debounced function followed by the timer firing
    invokes the function exactly once: with the arguments of the last call
    when [immediate] is false, and with those of the first call when
    [immediate] is true and no call was pending. *)
Theorem debounce_burst {A} (a : A) rest st :
  Debounce.drun false (map Debounce.DCall (a :: rest) ++ [Debounce.DFire]) st
  = Debounce.mkDS None (Debounce.invoked st ++ [last rest a]) /\
  (Debounce.pending st = None ->
   Debounce.drun true (map Debounce.DCall (a :: rest) ++ [Debounce.DFire]) st
   = Debounce.mkDS None (Debounce.invoked st ++ [a])).
Proof.
  split.
  - unfold Debounce.drun. rewrite fold_left_app.
    fold (Debounce.drun false (map Debounce.DCall (a :: rest)) st).
    rewrite DebounceFacts.calls_no_invoke by (left; reflexivity). reflexivity.
  - intros Hp. unfold Debounce.drun. rewrite fold_left_app. cbn [map fold_left].
    assert (S1 : Debounce.dstep true st (Debounce.DCall a)
                 = Debounce.mkDS (Some a) (Debounce.invoked st ++ [a])).
    { unfold Debounce.dstep. rewrite Hp. reflexivity. }
    rewrite S1.
    change (fold_left (Debounce.dstep true) (map Debounce.DCall rest)
              (Debounce.mkDS (Some a) (Debounce.invoked st ++ [a])))
      with (Debounce.drun true (map Debounce.DCall rest)
              (Debounce.mkDS (Some a) (Debounce.invoked st ++ [a]))).
    destruct rest as [|b rest].
    + reflexivity.
    + rewrite DebounceFacts.calls_no_invoke by (right; exists a; reflexivity). reflexivity.
Qed.

(** ** [renderer.js] *)

Module RenderFacts.

Lemma layout_ops d maxW x y ls :
  map snd (fst (Render.layout d maxW x y ls)) = map Render.draw_one ls.
Proof.
  revert x y; induction ls as [|lt ls IH]; intros x y; [reflexivity|].
  simpl. destruct (maxW <? x + Render.letterWidth d + Render.letterSpacing d).
  - destruct (Render.layout d maxW 10 (y + Render.lineHeight d) ls) as [rest yf] eqn:E.
    simpl. f_equal. rewrite <- (IH 10 (y + Render.lineHeight d)), E. reflexivity.
  - destruct (Render.layout d maxW (x + Render.letterWidth d + Render.letterSpacing d) y ls) as [rest yf] eqn:E.
    simpl. f_equal. rewrite <- (IH (x + Render.letterWidth d + Render.letterSpacing d) y), E. reflexivity.
Qed.

Lemma layout_bounds d maxW ls : forall x y,
  10 <= x <= Nat.max 10 maxW ->
  Forall (fun t => 10 <= fst (fst t) <= Nat.max 10 maxW) (fst (Render.layout d maxW x y ls)).
Proof.
  induction ls as [|lt ls IH]; intros x y0 Hx; simpl; [constructor|].
  destruct (maxW <? x + Render.letterWidth d + Render.letterSpacing d) eqn:B.
  - destruct (Render.layout d maxW 10 (y0 + Render.lineHeight d) ls) as [rest yf] eqn:E.
    simpl. constructor; [exact Hx|].
    specialize (IH 10 (y0 + Render.lineHeight d)). rewrite E in IH. apply IH. lia.
  - destruct (Render.layout d maxW (x + Render.letterWidth d + Render.letterSpacing d) y0 ls)
      as [rest yf] eqn:E.
    simpl. constructor; [exact Hx|].
    specialize (IH (x + Render.letterWidth d + Render.letterSpacing d) y0). rewrite E in IH.
    apply IH. apply Nat.ltb_ge in B. lia.
Qed.

Lemma layout_first d maxW x y ls x1 y1 o1 :
  nth_error (fst (Render.layout d maxW x y ls)) 0 = Some (x1, y1, o1) -> x1 = x /\ y1 = y.
Proof.
  destruct ls as [|lt r]; simpl; [discriminate|].
  destruct (maxW <? x + Render.letterWidth d + Render.letterSpacing d);
    [destruct (Render.layout d maxW 10 (y + Render.lineHeight d) r)
    |destruct (Render.layout d maxW (x + Render.letterWidth d + Render.letterSpacing d) y r)];
    simpl; intros H; injection H as <- <- _; split; reflexivity.
Qed.

Lemma layout_next d maxW ls : forall x y i x1 y1 o1 x2 y2 o2,
  nth_error (fst (Render.layout d maxW x y ls)) i = Some (x1, y1, o1) ->
  nth_error (fst (Render.layout d maxW x y ls)) (S i) = Some (x2, y2, o2) ->
  if maxW <? x1 + Render.letterWidth d + Render.letterSpacing d
  then x2 = 10 /\ y2 = y1 + Render.lineHeight d
  else x2 = x1 + Render.letterWidth d + Render.letterSpacing d /\ y2 = y1.
Proof.
  induction ls as [|lt r IH]; intros x y i x1 y1 o1 x2 y2 o2; simpl; [destruct i; discriminate|].
  destruct (maxW <? x + Render.letterWidth d + Render.letterSpacing d) eqn:B.
  - destruct (Render.layout d maxW 10 (y + Render.lineHeight d) r) as [rest yf] eqn:E. simpl.
    destruct i as [|i].
    + simpl. intros H1 H2. injection H1 as <- <- _. rewrite B.
      apply (layout_first d maxW 10 (y + Render.lineHeight d) r x2 y2 o2). rewrite E. exact H2.
    + simpl. intros H1 H2. specialize (IH 10 (y + Render.lineHeight d) i). rewrite E in IH.
      exact (IH _ _ _ _ _ _ H1 H2).
  - destruct (Render.layout d maxW (x + Render.letterWidth d + Render.letterSpacing d) y r)
      as [rest yf] eqn:E. simpl.
    destruct i as [|i].
    + simpl. intros H1 H2. injection H1 as <- <- _. rewrite B.
      apply (layout_first d maxW (x + Render.letterWidth d + Render.letterSpacing d) y r x2 y2 o2).
      rewrite E. exact H2.
    + simpl. intros H1 H2.
      specialize (IH (x + Render.letterWidth d + Render.letterSpacing d) y i). rewrite E in IH.
      exact (IH _ _ _ _ _ _ H1 H2).
Qed.

End RenderFacts.

(** The descriptors [updateCanvas] hands to the renderer keep only [type]
    and [value]: whatever the image loader, the renderer then draws a
    space as nothing, a special or placeholder descriptor as its
    character, and every letter as a fallback box in the default colours;
    it never draws an image. *)
Theorem app_letters_never_images p5load d maxW x y ds :
  map snd (fst (Render.layout d maxW x y
                  (Render.updateLetters p5load (map Render.renderer_input ds)))) =
  map app_glyph ds.
Proof.
  rewrite RenderFacts.layout_ops. unfold Render.updateLetters. rewrite !map_map.
  apply map_ext. intros dsc. unfold Render.update_one, Render.renderer_input; simpl.
  unfold Render.draw_one, app_glyph; simpl.
  destruct (String.eqb (d_type dsc) "space"); [reflexivity|].
  unfold Render.draw_text; simpl.
  destruct (String.eqb (d_type dsc) "special" || String.eqb (d_type dsc) "placeholder"); reflexivity.
Qed.

(** The draw loop of the renderer places the first glyph at x = 10 and
    every glyph at an x between 10 and [maxW] (or 10 when [maxW] is
    smaller). After drawing a glyph at x it advances the cursor by
    [letterWidth + letterSpacing]; when that passes [maxW] the next glyph
    goes to x = 10 one [lineHeight] lower, otherwise to the advanced x on
    the same line. A glyph drawn near the edge may therefore extend past
    [maxW]: the wrap happens after it. *)
Theorem layout_line_wrap d maxW y ls :
  Forall (fun t => 10 <= fst (fst t) <= Nat.max 10 maxW) (fst (Render.layout d maxW 10 y ls)) /\
  (forall x1 y1 o1, nth_error (fst (Render.layout d maxW 10 y ls)) 0 = Some (x1, y1, o1) ->
     x1 = 10 /\ y1 = y) /\
  (forall i x1 y1 o1 x2 y2 o2,
     nth_error (fst (Render.layout d maxW 10 y ls)) i = Some (x1, y1, o1) ->
     nth_error (fst (Render.layout d maxW 10 y ls)) (S i) = Some (x2, y2, o2) ->
     if maxW <? x1 + Render.letterWidth d + Render.letterSpacing d
     then x2 = 10 /\ y2 = y1 + Render.lineHeight d
     else x2 = x1 + Render.letterWidth d + Render.letterSpacing d /\ y2 = y1).
Proof.
  split; [apply RenderFacts.layout_bounds; lia|]. split.
  - intros x1 y1 o1. apply RenderFacts.layout_first.
  - intros i. apply RenderFacts.layout_next.
Qed.


(** ** [database.js]: [LetterGenerator] *)

Module GeneratorFacts.

Import LetterGenerator.

Lemma remove_key_absent {V} k (m : list (string * V)) :
  lookup k m = None -> remove_key k m = m.
Proof.
  induction m as [|[k' v] r IH]; simpl; [reflexivity|].
  destruct (String.eqb k k') eqn:E; [discriminate|]. intros H. f_equal. apply IH, H.
Qed.

Lemma generateLetter_inv ch style v c r st :
  gen_inv st ->
  gen_inv (snd (generateLetter ch style v c r st)) /\
  generated (snd (generateLetter ch style v c r st)) + cachedHits (snd (generateLetter ch style v c r st))
  = S (generated st + cachedHits st) /\
  fst (generateLetter ch style v c r st) < List.length (heap (snd (generateLetter ch style v c r st))).
Proof.
  intros (H1 & H2 & H3). unfold gen_inv, generateLetter.
  set (key := str1 ch ++ "_" ++ style ++ "_" ++ or_default v "01" ++ "_" ++ or_default c "NYC").
  destruct (lookup key (lg_cache st)) as [ref|] eqn:E; simpl.
  - split; [split; [exact H1|split; [exact H2|exact H3]]|split; [lia|]]. apply (H3 key), E.
  - unfold set_key. rewrite (remove_key_absent key _ E). rewrite length_app. simpl.
    split; [split; [lia|split; [lia|]]|split; [lia|lia]].
    intros k ref'. simpl. destruct (String.eqb k key).
    + intros Hr; injection Hr as <-. lia.
    + intros Hr. specialize (H3 k ref' Hr). lia.
Qed.

Lemma generate_all_inv calls : forall st, gen_inv st ->
  gen_inv (generate_all calls st) /\
  generated (generate_all calls st) + cachedHits (generate_all calls st)
  = generated st + cachedHits st + List.length calls.
Proof.
  induction calls as [|[[[[ch style] v] c] r] calls IH]; intros st Hst.
  - change (generate_all [] st) with st. split; [exact Hst|simpl; lia].
  - change (generate_all ((ch, style, v, c, r) :: calls) st)
      with (generate_all calls (snd (generateLetter ch style v c r st))).
    destruct (generateLetter_inv ch style v c r st Hst) as (Hi & Hc & _).
    destruct (IH _ Hi) as [Hi' Hc'].
    split; [exact Hi'|]. rewrite Hc', Hc. simpl. lia.
Qed.

End GeneratorFacts.

(** After any sequence of [generateLetter] calls from the constructor's
    state, [getStats] is consistent: the cache and the heap both hold
    [generated] entries, every call counts once as generated or as a cache
    hit, and every cached reference points to an object of the heap. *)
Theorem generator_stats calls :
  List.length (LetterGenerator.lg_cache (generate_all calls LetterGenerator.lg_fresh))
    = LetterGenerator.generated (generate_all calls LetterGenerator.lg_fresh) /\
  List.length (LetterGenerator.heap (generate_all calls LetterGenerator.lg_fresh))
    = LetterGenerator.generated (generate_all calls LetterGenerator.lg_fresh) /\
  LetterGenerator.generated (generate_all calls LetterGenerator.lg_fresh)
    + LetterGenerator.cachedHits (generate_all calls LetterGenerator.lg_fresh) = List.length calls /\
  (forall k ref, lookup k (LetterGenerator.lg_cache (generate_all calls LetterGenerator.lg_fresh)) = Some ref ->
     exists o, LetterGenerator.deref (generate_all calls LetterGenerator.lg_fresh) ref = Some o).
Proof.
  destruct (GeneratorFacts.generate_all_inv calls LetterGenerator.lg_fresh) as [(H1 & H2 & H3) Hc].
  { split; [reflexivity|split; [reflexivity|]]. intros k ref Hk; discriminate. }
  split; [exact H1|split; [exact H2|split; [simpl in Hc; exact Hc|]]].
  intros k ref Hk. unfold LetterGenerator.deref.
  pose proof (proj2 (nth_error_Some (LetterGenerator.heap (generate_all calls LetterGenerator.lg_fresh)) ref)
                    (H3 k ref Hk)) as Hn.
  destruct (nth_error _ ref) as [o|]; [exists o; reflexivity|contradiction].
Qed.

(** ** Descriptor kinds of the two letter pipelines *)

Module DescriptorFacts.

Section Collect.
Variable St : Type.
Variable load : string -> string -> ascii -> St -> (option obj + string) * St.
Variable rnd : nat -> nat.

Lemma collect_kind style city cs i st :
  Forall (fun d => d_type d = char_kind (d_value d))
         (map (Typography.finalize rnd style) (fst (Typography.collect St load style city cs i st))).
Proof.
  revert i st; induction cs as [|c r IH]; intros i st; simpl; [constructor|].
  unfold char_kind at 1.
  destruct (Ascii.eqb c " "%char) eqn:Hs.
  - destruct (Typography.collect St load style city r (S i) st) as [rest st'] eqn:E.
    simpl. constructor; [unfold char_kind; simpl; rewrite Hs; reflexivity|].
    specialize (IH (S i) st). rewrite E in IH. exact IH.
  - destruct (negb (is_alnum c)) eqn:Ha.
    + destruct (Typography.collect St load style city r (S i) st) as [rest st'] eqn:E.
      simpl. constructor; [unfold char_kind; simpl; rewrite Hs, Ha; reflexivity|].
      specialize (IH (S i) st). rewrite E in IH. exact IH.
    + destruct (load city _ c st) as [outcome st1].
      destruct (Typography.collect St load style city r (S i) st1) as [rest st2] eqn:E.
      simpl. constructor; [unfold char_kind; simpl; rewrite Hs, Ha; reflexivity|].
      specialize (IH (S i) st1). rewrite E in IH. exact IH.
Qed.

End Collect.

Section Select.
Variable db : FixedDB.db_state.
Variable probe : string -> bool.
Variable rnd : nat -> nat.
Variable pick : nat -> nat -> nat.
Variable remote : string -> option obj + string.
Variable canvas_png : ascii -> string.

Lemma select_one_kind style loc i c :
  d_type (Selector.select_one db probe rnd pick remote canvas_png style loc i c) = char_kind c /\
  (d_type (Selector.select_one db probe rnd pick remote canvas_png style loc i c) = "letter" ->
   has_image (Selector.select_one db probe rnd pick remote canvas_png style loc i c) /\
   d_style (Selector.select_one db probe rnd pick remote canvas_png style loc i c) = Some style).
Proof.
  unfold Selector.select_one, char_kind.
  destruct (Ascii.eqb c " "%char); [split; [reflexivity|discriminate]|].
  destruct (negb (is_alnum c)); [split; [reflexivity|discriminate]|].
  assert (P : has_image (Selector.placeholder_desc canvas_png c style) /\
              d_style (Selector.placeholder_desc canvas_png c style) = Some style).
  { split; [|reflexivity]. eexists; split; [reflexivity|split; reflexivity]. }
  destruct (fst _) as [|p ps].
  - split; [reflexivity|intros _; exact P].
  - destruct (match Selector.loadImage remote _ with inl v => v | inr _ => None end) as [o|].
    + destruct (falsy_dim (o_width o) || falsy_dim (o_height o)) eqn:F.
      * split; [reflexivity|intros _; exact P].
      * apply orb_false_iff in F as [F1 F2].
        split; [reflexivity|intros _; split; [|reflexivity]].
        exists o; split; [reflexivity|split; assumption].
    + split; [reflexivity|intros _; exact P].
Qed.

Lemma select_from_kind style_of loc cs i :
  Forall (fun d => d_type d = char_kind (d_value d) /\ (d_type d = "letter" -> has_image d))
         (Selector.select_from db probe rnd pick remote canvas_png style_of loc cs i).
Proof.
  revert i; induction cs as [|c r IH]; intros i; simpl; constructor; [|apply IH].
  rewrite select_one_value.
  destruct (select_one_kind (style_of i) loc i c) as [K L].
  split; [exact K|intros H; apply L, H].
Qed.

Lemma select_from_styles style_of loc cs i :
  (forall j, In (style_of j) Selector.availableStyles) ->
  Forall (fun d => d_type d = "letter" -> exists s, d_style d = Some s /\ In s Selector.availableStyles)
         (Selector.select_from db probe rnd pick remote canvas_png style_of loc cs i).
Proof.
  intros Hs. revert i; induction cs as [|c r IH]; intros i; simpl; constructor; [|apply IH].
  intros Hl. destruct (select_one_kind (style_of i) loc i c) as [_ L].
  destruct (L Hl) as [_ E]. exists (style_of i). split; [exact E|apply Hs].
Qed.

End Select.

End DescriptorFacts.

(** Both letter pipelines type each descriptor by its character alone: a
    space gives ["space"], a character that is not a letter or digit gives
    ["special"], and a letter or digit gives ["letter"], whether or not an
    image was found. *)
Theorem descriptor_kinds :
  (forall (St : Type) init load rnd cfg o t (st : St),
     Forall (fun d => d_type d = char_kind (d_value d))
            (fst (Typography.getLettersFromText St init load rnd cfg o t st))) /\
  (forall db probe rnd pick random_index remote canvas_png opts,
     Forall (fun d => d_type d = char_kind (d_value d))
            (Selector.getSelectedLetters db probe rnd pick random_index remote canvas_png opts)).
Proof.
  split.
  - intros St init load rnd cfg o t st. unfold Typography.getLettersFromText.
    match goal with |- context [Typography.collect St load ?sty ?cty ?cs 0 ?s0] =>
      pose proof (DescriptorFacts.collect_kind St load rnd sty cty cs 0 s0) as H;
      destruct (Typography.collect St load sty cty cs 0 s0) as [pairs st'] end.
    exact H.
  - intros db probe rnd pick random_index remote canvas_png [o|]; [|constructor].
    unfold Selector.getSelectedLetters, Selector.selectLettersWithRandomStyles,
           Selector.selectLettersForText.
    destruct (String.eqb _ "random"); (destruct (String.eqb _ ""); [constructor|]);
      (eapply Forall_impl; [|apply DescriptorFacts.select_from_kind]; intros d [H _]; exact H).
Qed.

(** Every ["letter"] descriptor of the selector carries an image with
    truthy width and height: the loaded variant, or the canvas-drawn
    placeholder when no variant loads or its image has no size. *)
Theorem selector_letters_have_images db probe rnd pick random_index remote canvas_png opts :
  Forall (fun d => d_type d = "letter" -> has_image d)
         (Selector.getSelectedLetters db probe rnd pick random_index remote canvas_png opts).
Proof.
  destruct opts as [o|]; [|constructor].
  unfold Selector.getSelectedLetters, Selector.selectLettersWithRandomStyles,
         Selector.selectLettersForText.
  destruct (String.eqb _ "random"); (destruct (String.eqb _ ""); [constructor|]);
    (eapply Forall_impl; [|apply DescriptorFacts.select_from_kind]; intros d [_ H]; exact H).
Qed.

(** [selectLettersWithRandomStyles] gives every ["letter"] descriptor a
    style drawn from [availableStyles], whatever the random draws. *)
Theorem random_styles_available db probe rnd pick random_index remote canvas_png text loc :
  Forall (fun d => d_type d = "letter" -> exists s, d_style d = Some s /\ In s Selector.availableStyles)
         (Selector.selectLettersWithRandomStyles db probe rnd pick random_index remote canvas_png text loc).
Proof.
  unfold Selector.selectLettersWithRandomStyles.
  destruct (String.eqb text ""); [constructor|].
  apply DescriptorFacts.select_from_styles. intros j. apply nth_In.
  apply Nat.mod_upper_bound. discriminate.
Qed.

(** ** [assetManager.js]: letter loading once detection found no assets *)

Module FallbackFacts.

Import Loader AssetManager LetterLoading.

Section FB.
Variable is_local : bool.
Variable exists_ : string -> bool.
Variable rand : nat -> nat.
Variable bases templates : list string.

Lemma fallback_getFallbackLetter ch s st :
  fallback_mode st -> fallback_mode (snd (getFallbackLetter rand ch s st)) /\
                      same_net st (snd (getFallbackLetter rand ch s st)).
Proof.
  intros H. unfold getFallbackLetter. destruct (lookup _ _); simpl.
  - split; [exact H|split; reflexivity].
  - split; [exact H|split; reflexivity].
Qed.

Lemma fallback_body city style letter variant st :
  fallback_mode st ->
  exists o, body rand city style letter variant st = (LDone o, snd (body rand city style letter variant st)) /\
  fallback_mode (snd (body rand city style letter variant st)) /\
  same_net st (snd (body rand city style letter variant st)).
Proof.
  intros (H1 & H2 & H3 & H4). unfold body.
  cbn [set_counts AssetManager.cache AssetManager.loadingPromises].
  destruct (lookup _ (AssetManager.cache st)) as [v|] eqn:E.
  - eexists. split; [reflexivity|]. split; [split; [exact H1|split; [exact H2|split; [exact H3|exact H4]]]|].
    split; reflexivity.
  - rewrite H4. cbn [lookup].
    assert (E2 : assetDetectionCompleted (set_counts (S (requested st)) (loaded st) (failed st) (cached st) st) = true) by exact H2.
    assert (E3 : assetsDetected (set_counts (S (requested st)) (loaded st) (failed st) (cached st) st) = false) by exact H3.
    rewrite E2, E3. cbn [andb negb].
    destruct (getFallbackLetter rand letter style _) as [f st1] eqn:G.
    assert (FM : fallback_mode (set_counts (S (requested st)) (loaded st) (failed st) (cached st) st)).
    { split; [exact H1|split; [exact H2|split; [exact H3|exact H4]]]. }
    destruct (fallback_getFallbackLetter letter style _ FM) as [F1 F2].
    rewrite G in F1, F2. simpl in F1, F2.
    eexists. split; [reflexivity|]. split; [exact F1|].
    destruct F2 as [F3 F4]. split; [exact F3|exact F4].
Qed.
End FB.

Section FB2.
Variable is_local : bool.
Variable exists_ : string -> bool.
Variable rand : nat -> nat.
Variable bases templates : list string.

Lemma fallback_step pc st :
  fallback_mode st -> start_or_done pc ->
  start_or_done (fst (ll_step is_local exists_ rand bases templates pc st)) /\
  fallback_mode (snd (ll_step is_local exists_ rand bases templates pc st)) /\
  same_net st (snd (ll_step is_local exists_ rand bases templates pc st)).
Proof.
  intros H Hpc. destruct pc as [city style letter variant| | | |o]; try contradiction.
  - unfold ll_step. pose proof H as (H1 & _). rewrite H1.
    destruct (fallback_body rand city style letter variant st H) as (o & E & F1 & F2).
    rewrite E. simpl. split; [exact I|split; assumption].
  - simpl. split; [exact I|split; [exact H|split; reflexivity]].
Qed.

Lemma fallback_img k ok st :
  fallback_mode st -> fallback_mode (img_event k ok st) /\ same_net st (img_event k ok st).
Proof.
  intros H. unfold img_event.
  destruct (nth_error (lfetches st) k) as [[path p]|]; [|split; [exact H|split; reflexivity]].
  destruct (lookup_p p (lpromises st)) as [[| |]|]; try (split; [exact H|split; reflexivity]).
  destruct ok as [[w h]|]; (split; [exact H|split; reflexivity]).
Qed.

Lemma fallback_run items pcs st :
  fallback_mode st -> Forall start_or_done pcs ->
  lfetches (snd (ll_run is_local exists_ rand bases templates items pcs st)) = lfetches st /\
  probes (snd (ll_run is_local exists_ rand bases templates items pcs st)) = probes st /\
  Forall start_or_done (fst (ll_run is_local exists_ rand bases templates items pcs st)) /\
  fallback_mode (snd (ll_run is_local exists_ rand bases templates items pcs st)).
Proof.
  revert pcs st; induction items as [|it items IH]; intros pcs st H Hpcs.
  - simpl. split; [reflexivity|split; [reflexivity|split; [exact Hpcs|exact H]]].
  - simpl. destruct (ll_item is_local exists_ rand bases templates pcs it st) as [pcs1 st1] eqn:E.
    assert (K : fallback_mode st1 /\ same_net st st1 /\ Forall start_or_done pcs1).
    { destruct it as [i|k w h|k]; simpl in E.
      - destruct (nth_error pcs i) as [pc|] eqn:N.
        + destruct (ll_step is_local exists_ rand bases templates pc st) as [pc' st'] eqn:S.
          injection E as <- <-.
          assert (Hpc : start_or_done pc).
          { eapply Forall_forall; [exact Hpcs|]. eapply nth_error_In; exact N. }
          destruct (fallback_step pc st H Hpc) as (A1 & A2 & A3). rewrite S in A1, A2, A3.
          split; [exact A2|split; [exact A3|]].
          apply DetectionFacts.set_nth_forall; assumption.
        + injection E as <- <-. split; [exact H|split; [split; reflexivity|exact Hpcs]].
      - injection E as <- <-. destruct (fallback_img k (Some (w, h)) st H) as [A B].
        split; [exact A|split; [exact B|exact Hpcs]].
      - injection E as <- <-. destruct (fallback_img k None st H) as [A B].
        split; [exact A|split; [exact B|exact Hpcs]]. }
    destruct K as (K1 & (K2 & K3) & K4).
    destruct (IH pcs1 st1 K1 K4) as (I1 & I2 & I3 & I4).
    split; [rewrite I1; exact K2|split; [rewrite I2; exact K3|split; [exact I3|exact I4]]].
Qed.

Lemma fallback_first_step city style letter variant st :
  fallback_mode st ->
  fst (ll_step is_local exists_ rand bases templates (LStart city style letter variant) st)
  = LDone (Fulfilled (Some (match lookup (cacheKey city style letter variant) (AssetManager.cache st) with
                            | Some v => v
                            | None => fst (getFallbackLetter rand letter style st)
                            end))).
Proof.
  intros (H1 & H2 & H3 & H4). unfold ll_step. rewrite H1. unfold body.
  cbn [set_counts AssetManager.cache AssetManager.loadingPromises].
  destruct (lookup _ (AssetManager.cache st)) as [v|]; [reflexivity|].
  rewrite H4. cbn [lookup].
  assert (E2 : assetDetectionCompleted (set_counts (S (requested st)) (loaded st) (failed st) (cached st) st) = true) by exact H2.
  assert (E3 : assetsDetected (set_counts (S (requested st)) (loaded st) (failed st) (cached st) st) = false) by exact H3.
  rewrite E2, E3. cbn [andb negb].
  assert (F : fst (getFallbackLetter rand letter style
                     (set_counts (S (requested st)) (loaded st) (failed st) (cached st) st))
              = fst (getFallbackLetter rand letter style st)).
  { unfold getFallbackLetter, set_counts. cbn [fallbackImages draws].
    destruct (lookup (str1 letter) (fallbackImages st)); reflexivity. }
  destruct (getFallbackLetter rand letter style _) as [f st1] eqn:G.
  simpl in F |- *. rewrite F. reflexivity.
Qed.
End FB2.

End FallbackFacts.

(** Once detection has finished without finding assets (and no letter
    load is in flight), [loadLetter] callers never fetch an image and
    never probe a path, however their steps interleave with image events,
    and the asset manager stays in that state. Every caller finishes in
    its first step: with the letter cached under its key when there is
    one, and otherwise with the fallback letter of [_getFallbackLetter]
    for its character. *)
Theorem fallback_mode_no_network is_local exists_ rand bases templates items pcs st :
  fallback_mode st -> Forall start_or_done pcs ->
  AssetManager.lfetches (snd (LetterLoading.ll_run is_local exists_ rand bases templates items pcs st))
    = AssetManager.lfetches st /\
  AssetManager.probes (snd (LetterLoading.ll_run is_local exists_ rand bases templates items pcs st))
    = AssetManager.probes st /\
  Forall start_or_done (fst (LetterLoading.ll_run is_local exists_ rand bases templates items pcs st)) /\
  fallback_mode (snd (LetterLoading.ll_run is_local exists_ rand bases templates items pcs st)) /\
  (forall city style letter variant st', fallback_mode st' ->
     fst (LetterLoading.ll_step is_local exists_ rand bases templates
            (LetterLoading.LStart city style letter variant) st')
     = LetterLoading.LDone (Loader.Fulfilled (Some
         (match lookup (LetterLoading.cacheKey city style letter variant) (AssetManager.cache st') with
          | Some v => v
          | None => fst (AssetManager.getFallbackLetter rand letter style st')
          end)))).
Proof.
  intros H P.
  destruct (FallbackFacts.fallback_run is_local exists_ rand bases templates items pcs st H P)
    as (A1 & A2 & A3 & A4).
  split; [exact A1|split; [exact A2|split; [exact A3|split; [exact A4|]]]].
  intros city style letter variant st' H'.
  exact (FallbackFacts.fallback_first_step is_local exists_ rand bases templates city style letter variant st' H').
Qed.

(** Witness: two callers for ['A'] and ['B'], stepped three times. *)
Lemma fallback_mode_no_network_witness :
  fallback_mode fb_state /\
  Forall start_or_done [LetterLoading.LStart "NYC" "sans-upper" "A"%char "01";
                        LetterLoading.LStart "NYC" "sans-upper" "B"%char "01"] /\
  AssetManager.lfetches
    (snd (LetterLoading.ll_run false (fun _ => true) (fun _ => 7) AssetManager.possibleBasePaths
            AssetManager.pathTemplates [LetterLoading.Run 0; LetterLoading.Run 1; LetterLoading.Run 0]
            [LetterLoading.LStart "NYC" "sans-upper" "A"%char "01";
             LetterLoading.LStart "NYC" "sans-upper" "B"%char "01"]
            fb_state)) = AssetManager.lfetches fb_state.
Proof.
  assert (H : fallback_mode fb_state) by (repeat split).
  assert (P : Forall start_or_done [LetterLoading.LStart "NYC" "sans-upper" "A"%char "01";
                                    LetterLoading.LStart "NYC" "sans-upper" "B"%char "01"])
    by (repeat constructor).
  split; [exact H|split; [exact P|]].
  exact (proj1 (fallback_mode_no_network false (fun _ => true) (fun _ => 7) AssetManager.possibleBasePaths
                  AssetManager.pathTemplates [LetterLoading.Run 0; LetterLoading.Run 1; LetterLoading.Run 0]
                  _ fb_state H P)).
Defined.
